(** * service-nexus-noir: booking transitions and favorites

    A shallow embedding of the two client-side hooks of the repository:

    - [useBookingsActionsV2] (the four booking mutations [acceptBooking],
      [markInProgress], [completeBooking], [cancelBooking]);
    - [useFavorites] ([loadFavorites], [addToFavorites],
      [removeFromFavorites], [isFavorite]).

    Both hooks are sequences of remote calls, checks, [throw]s and state
    updates.  They are written here in a state-and-exception monad, one
    definition per source function, statement by statement. *)

From stdpp Require Import base strings list gmap fin_maps.

(** ** JavaScript values, exceptions, and the monad of the hooks *)

(** The values stored in the columns of a row or in the properties of an
    object literal. *)
Inductive value :=
  | VUndefined
  | VNull
  | VString (s : string).

Global Instance value_eq_dec : EqDecision value.
Proof. solve_decision. Defined.

(** What a [throw] carries: [new Error(message)], or the error object of a
    remote reply thrown as it is ([throw error]). *)
Inductive Exn :=
  | Error (message : string)
  | PostgrestError (message : string).

Global Instance Exn_eq_dec : EqDecision Exn.
Proof. solve_decision. Defined.

Inductive Result (A : Type) :=
  | Return (a : A)
  | Throw (e : Exn).
Arguments Return {A} a.
Arguments Throw {A} e.

(** A computation over a state [S]: it ends by returning or by throwing, and
    the state changes made before a [throw] are kept. *)
Definition M (S A : Type) : Type := S → Result A * S.

Definition ret {S A} (a : A) : M S A := λ s, (Return a, s).

Definition bind {S A B} (m : M S A) (k : A → M S B) : M S B :=
  λ s, match m s with
       | (Return a, s') => k a s'
       | (Throw e, s') => (Throw e, s')
       end.

Definition throw {S A} (e : Exn) : M S A := λ s, (Throw e, s).

Definition gets {S A} (f : S → A) : M S A := λ s, (Return (f s), s).

Definition modify {S} (f : S → S) : M S unit := λ s, (Return tt, f s).

(** [try { body } catch (error) { handler }] *)
Definition try_catch {S A} (body : M S A) (handler : Exn → M S A) : M S A :=
  λ s, match body s with
       | (Return a, s') => (Return a, s')
       | (Throw e, s') => handler e s'
       end.

(** [try { body } finally { cleanup }]: the cleanup runs on both exits and
    the exit of the body is kept. *)
Definition try_finally {S A} (body : M S A) (cleanup : M S unit) : M S A :=
  λ s, match body s with
       | (r, s') =>
           match cleanup s' with
           | (Return _, s'') => (r, s'')
           | (Throw e, s'') => (Throw e, s'')
           end
       end.

Declare Scope hook_scope.
Delimit Scope hook_scope with hook.
Notation "x <- m ;; k" := (bind m (λ x, k))
  (at level 100, m at next level, right associativity) : hook_scope.
Notation "m ;; k" := (bind m (λ _, k))
  (at level 100, right associativity) : hook_scope.
Bind Scope hook_scope with M.

(** Property read [o.k]: a missing property reads as [undefined]. *)
Definition prop (o : gmap string value) (k : string) : value :=
  default VUndefined (o !! k).

(** [a === b] on the values above. *)
Definition strict_eq (a b : value) : bool := bool_decide (a = b).

(** [!v]: [undefined], [null] and the empty string are falsy. *)
Definition falsy (v : value) : bool :=
  match v with
  | VUndefined | VNull => true
  | VString s => bool_decide (s = "")
  end.

(** [array.includes(v)] *)
Definition includes (array : list value) (v : value) : bool :=
  bool_decide (v ∈ array).

(** An optional string argument ([notes?: string]) as a value. *)
Definition optional (s : option string) : value :=
  match s with
  | Some s => VString s
  | None => VUndefined
  end.

(** The reply [{ data, error }] of a remote call. *)
Inductive Reply (A : Type) :=
  | Data (data : A)
  | Failed (error : string).
Arguments Data {A} data.
Arguments Failed {A} error.

(** The authenticated user of [useAuth]. *)
Record User := { user_id : string }.

(** [user?.id] *)
Definition optional_id (user : option User) : value :=
  match user with
  | Some u => VString (user_id u)
  | None => VUndefined
  end.

(** ** The booking transitions ([useBookingsActionsV2]) *)

Module Bookings.

(** A remote call on the [bookings] table. *)
Inductive Request :=
  | Select (bookingId : string)
  | Update (bookingId : string) (payload : gmap string value).

(** The world of the hook: the user of [useAuth], the clock read by
    [new Date().toISOString()], the remote table (rows by [id], a row maps
    its columns to values), the outcome of the coming remote calls
    ([Some message]: the call is refused with that error and changes
    nothing; [None] or no entry: the call is served), and the remote calls
    issued so far. *)
Record World := {
  user : option User;
  clock : string;
  bookings : gmap string (gmap string value);
  faults : list (option string);
  requests : list Request;
}.

Definition set_bookings (f : gmap string (gmap string value) →
                             gmap string (gmap string value))
    (w : World) : World :=
  {| user := user w; clock := clock w; bookings := f (bookings w);
     faults := faults w; requests := requests w |}.

Definition set_faults (fs : list (option string)) (w : World) : World :=
  {| user := user w; clock := clock w; bookings := bookings w;
     faults := fs; requests := requests w |}.

Definition issue (r : Request) (w : World) : World :=
  {| user := user w; clock := clock w; bookings := bookings w;
     faults := faults w; requests := requests w ++ [r] |}.

(** The outcome the remote store has in stock for the call being made. *)
Definition next_fault : M World (option string) :=
  λ w, (Return (default None (head (faults w))),
        set_faults (tail (faults w)) w).

(** The request body is JSON: properties whose value is [undefined] are
    not sent. *)
Definition json (payload : gmap string value) : gmap string value :=
  omap (λ v, match v with VUndefined => None | _ => Some v end) payload.

(** A served update overwrites the columns of the body and keeps the
    others. *)
Definition overwrite (payload row : gmap string value)
    : gmap string value :=
  json payload ∪ row.

(** The error of [single()] when the filter does not select one row. *)
Definition no_rows : string :=
  "JSON object requested, multiple (or no) rows returned".

(** [supabase.from('bookings').select('*').eq('id', bookingId).single()];
    [id] is the key of the table, so the filter selects one row or none. *)
Definition select_single (bookingId : string)
    : M World (Reply (gmap string value)) :=
  (modify (issue (Select bookingId)) ;;
   f <- next_fault ;;
   match f with
   | Some error => ret (Failed error)
   | None =>
       rows <- gets bookings ;;
       match rows !! bookingId with
       | Some row => ret (Data row)
       | None => ret (Failed no_rows)
       end
   end)%hook.

(** [supabase.from('bookings').update(payload).eq('id', bookingId)];
    the result is the [error] of the reply. *)
Definition update (payload : gmap string value) (bookingId : string)
    : M World (option string) :=
  (modify (issue (Update bookingId payload)) ;;
   f <- next_fault ;;
   match f with
   | Some error => ret (Some error)
   | None =>
       modify (set_bookings (alter (overwrite payload) bookingId)) ;;
       ret None
   end)%hook.

Definition useAuth : M World (option User) := gets user.

(** [new Date().toISOString()] *)
Definition now : M World value := gets (λ w, VString (clock w)).

(** What a mutation function returns: [{ bookingId, status }]. *)
Record Outcome := { bookingId : string; status : string }.

(** [acceptBooking.mutationFn] *)
Definition acceptBooking (bookingId : string) (notes : option string)
    : M World Outcome :=
  (user <- useAuth ;;
   if falsy (optional_id user) then throw (Error "User not authenticated")
   else
     fetched <- select_single bookingId ;;
     match fetched with
     | Failed fetchError => throw (Error "Failed to fetch booking details")
     | Data booking =>
         if negb (strict_eq (prop booking "provider_user_id") (optional_id user))
         then throw (Error "You are not authorized to accept this booking")
         else if negb (strict_eq (prop booking "status") (VString "pending"))
         then throw (Error "This booking cannot be accepted")
         else
           accepted_at <- now ;;
           error <- update (list_to_map
                      [("status", VString "accepted");
                       ("provider_notes", optional notes);
                       ("accepted_at", accepted_at)]) bookingId ;;
           match error with
           | Some error => throw (PostgrestError error)
           | None => ret {| bookingId := bookingId; status := "accepted" |}
           end
     end)%hook.

(** [markInProgress.mutationFn] *)
Definition markInProgress (bookingId : string) (notes : option string)
    : M World Outcome :=
  (user <- useAuth ;;
   if falsy (optional_id user) then throw (Error "User not authenticated")
   else
     fetched <- select_single bookingId ;;
     match fetched with
     | Failed fetchError => throw (Error "Failed to fetch booking details")
     | Data booking =>
         if negb (strict_eq (prop booking "provider_user_id") (optional_id user))
         then throw (Error "You are not authorized to update this booking")
         else if negb (strict_eq (prop booking "status") (VString "accepted"))
         then throw (Error "This booking cannot be marked as in progress")
         else
           started_at <- now ;;
           error <- update (list_to_map
                      [("status", VString "in_progress");
                       ("provider_notes", optional notes);
                       ("started_at", started_at)]) bookingId ;;
           match error with
           | Some error => throw (PostgrestError error)
           | None => ret {| bookingId := bookingId; status := "in_progress" |}
           end
     end)%hook.

(** [completeBooking.mutationFn] *)
Definition completeBooking (bookingId : string) (notes : option string)
    : M World Outcome :=
  (user <- useAuth ;;
   if falsy (optional_id user) then throw (Error "User not authenticated")
   else
     fetched <- select_single bookingId ;;
     match fetched with
     | Failed fetchError => throw (Error "Failed to fetch booking details")
     | Data booking =>
         if negb (strict_eq (prop booking "provider_user_id") (optional_id user))
         then throw (Error "You are not authorized to complete this booking")
         else if negb (strict_eq (prop booking "status") (VString "in_progress"))
         then throw (Error "This booking cannot be completed")
         else
           completed_at <- now ;;
           error <- update (list_to_map
                      [("status", VString "completed");
                       ("provider_notes", optional notes);
                       ("completed_at", completed_at)]) bookingId ;;
           match error with
           | Some error => throw (PostgrestError error)
           | None => ret {| bookingId := bookingId; status := "completed" |}
           end
     end)%hook.

(** [cancelBooking.mutationFn] *)
Definition cancelBooking (bookingId : string) (reason : string)
    : M World Outcome :=
  (user <- useAuth ;;
   if falsy (optional_id user) then throw (Error "User not authenticated")
   else
     fetched <- select_single bookingId ;;
     match fetched with
     | Failed fetchError => throw (Error "Failed to fetch booking details")
     | Data booking =>
         if negb (strict_eq (prop booking "provider_user_id") (optional_id user))
         then throw (Error "You are not authorized to cancel this booking")
         else if includes [VString "cancelled"; VString "completed"]
                          (prop booking "status")
         then throw (Error "This booking cannot be cancelled")
         else
           cancelled_at <- now ;;
           error <- update (list_to_map
                      [("status", VString "cancelled");
                       ("cancellation_reason", VString reason);
                       ("cancelled_at", cancelled_at)]) bookingId ;;
           match error with
           | Some error => throw (PostgrestError error)
           | None => ret {| bookingId := bookingId; status := "cancelled" |}
           end
     end)%hook.

(** *** The four mutations as one family *)

Inductive Transition := Accept | Start | Complete | Cancel.

(** A call of one of the four mutation functions with its arguments. *)
Inductive Invocation :=
  | CallAccept (bookingId : string) (notes : option string)
  | CallStart (bookingId : string) (notes : option string)
  | CallComplete (bookingId : string) (notes : option string)
  | CallCancel (bookingId : string) (reason : string).

Definition mutationFn (i : Invocation) : M World Outcome :=
  match i with
  | CallAccept bookingId notes => acceptBooking bookingId notes
  | CallStart bookingId notes => markInProgress bookingId notes
  | CallComplete bookingId notes => completeBooking bookingId notes
  | CallCancel bookingId reason => cancelBooking bookingId reason
  end.

Definition transition_of (i : Invocation) : Transition :=
  match i with
  | CallAccept _ _ => Accept
  | CallStart _ _ => Start
  | CallComplete _ _ => Complete
  | CallCancel _ _ => Cancel
  end.

Definition target (i : Invocation) : string :=
  match i with
  | CallAccept bookingId _ | CallStart bookingId _
  | CallComplete bookingId _ | CallCancel bookingId _ => bookingId
  end.

(** The four kinds of failure of the checks, and the exception each
    mutation throws for each kind. *)
Inductive Guard :=
  | Authentication
  | Fetch
  | Authorization
  | Precondition.

Definition thrown (t : Transition) (c : Guard) : Exn :=
  match c, t with
  | Authentication, _ => Error "User not authenticated"
  | Fetch, _ => Error "Failed to fetch booking details"
  | Authorization, Accept => Error "You are not authorized to accept this booking"
  | Authorization, Start => Error "You are not authorized to update this booking"
  | Authorization, Complete => Error "You are not authorized to complete this booking"
  | Authorization, Cancel => Error "You are not authorized to cancel this booking"
  | Precondition, Accept => Error "This booking cannot be accepted"
  | Precondition, Start => Error "This booking cannot be marked as in progress"
  | Precondition, Complete => Error "This booking cannot be completed"
  | Precondition, Cancel => Error "This booking cannot be cancelled"
  end.

(** The table of the specification (section 4.2), row by row: the
    precondition on the current status, the resulting status, and the
    extra fields set. *)
Definition table_precondition (t : Transition) (status : value) : bool :=
  match t with
  | Accept => bool_decide (status = VString "pending")
  | Start => bool_decide (status = VString "accepted")
  | Complete => bool_decide (status = VString "in_progress")
  | Cancel => bool_decide (status ≠ VString "cancelled" ∧
                           status ≠ VString "completed")
  end.

Definition table_status (t : Transition) : string :=
  match t with
  | Accept => "accepted"
  | Start => "in_progress"
  | Complete => "completed"
  | Cancel => "cancelled"
  end.

Definition table_fields (t : Transition) : gset string :=
  match t with
  | Accept => {[ "provider_notes"; "accepted_at" ]}
  | Start => {[ "provider_notes"; "started_at" ]}
  | Complete => {[ "provider_notes"; "completed_at" ]}
  | Cancel => {[ "cancellation_reason"; "cancelled_at" ]}
  end.

(** The caller is authenticated: [user?.id] is a non-empty string. *)
Definition authenticated (w : World) (caller : string) : Prop :=
  user w = Some {| user_id := caller |} ∧ caller ≠ "".

(** The outcome in stock for the [n]-th coming remote call. *)
Definition fault_at (n : nat) (w : World) : option string :=
  default None (faults w !! n).

(** The updates among the remote calls issued. *)
Definition updates (w : World) : list (string * gmap string value) :=
  omap (λ r, match r with
             | Update bookingId payload => Some (bookingId, payload)
             | Select _ => None
             end) (requests w).

(** *** The transitions as the specification describes them

    Section 4.2 gives one pattern for the four transitions: authenticate,
    re-fetch, authorize, check the precondition of the table, update.
    [table_run] follows that description; [mutationFn_table] below shows
    that each mutation function of the source is an instance of it. *)

(** What the re-fetch replies in world [w]. *)
Definition fetch_reply (bookingId : string) (w : World)
    : Reply (gmap string value) :=
  match fault_at 0 w with
  | Some error => Failed error
  | None =>
      match bookings w !! bookingId with
      | Some row => Data row
      | None => Failed no_rows
      end
  end.

(** The world once the re-fetch is done: one more request, one outcome
    consumed, the table as it was. *)
Definition after_fetch (bookingId : string) (w : World) : World :=
  set_faults (tail (faults w)) (issue (Select bookingId) w).

(** The world once the update is done, served or refused. *)
Definition after_update (bookingId : string) (payload : gmap string value)
    (w : World) : World :=
  let w' := set_faults (tail (faults w)) (issue (Update bookingId payload) w) in
  match default None (head (faults w)) with
  | Some _ => w'
  | None => set_bookings (alter (overwrite payload) bookingId) w'
  end.

Definition table_run (t : Transition) (bookingId : string)
    (payload : gmap string value) (w : World) : Result Outcome * World :=
  if falsy (optional_id (user w)) then (Throw (thrown t Authentication), w)
  else
    match fetch_reply bookingId w with
    | Failed _ => (Throw (thrown t Fetch), after_fetch bookingId w)
    | Data booking =>
        if negb (strict_eq (prop booking "provider_user_id")
                           (optional_id (user w)))
        then (Throw (thrown t Authorization), after_fetch bookingId w)
        else if negb (table_precondition t (prop booking "status"))
        then (Throw (thrown t Precondition), after_fetch bookingId w)
        else
          let w' := after_update bookingId payload (after_fetch bookingId w) in
          match fault_at 1 w with
          | Some error => (Throw (PostgrestError error), w')
          | None =>
              (Return {| bookingId := bookingId; status := table_status t |},
               w')
          end
    end.

(** The object literal each mutation passes to [update]. *)
Definition payload_of (i : Invocation) (w : World) : gmap string value :=
  match i with
  | CallAccept _ notes =>
      list_to_map [("status", VString "accepted");
                   ("provider_notes", optional notes);
                   ("accepted_at", VString (clock w))]
  | CallStart _ notes =>
      list_to_map [("status", VString "in_progress");
                   ("provider_notes", optional notes);
                   ("started_at", VString (clock w))]
  | CallComplete _ notes =>
      list_to_map [("status", VString "completed");
                   ("provider_notes", optional notes);
                   ("completed_at", VString (clock w))]
  | CallCancel _ reason =>
      list_to_map [("status", VString "cancelled");
                   ("cancellation_reason", VString reason);
                   ("cancelled_at", VString (clock w))]
  end.

(** The fields of the object literal whose value is [undefined], which the
    request body therefore does not carry: [provider_notes] when the
    optional [notes] is omitted. *)
Definition omitted_fields (i : Invocation) : gset string :=
  match i with
  | CallAccept _ None | CallStart _ None | CallComplete _ None =>
      {[ "provider_notes" ]}
  | _ => ∅
  end.

(** The columns an update of the call writes: the status and the fields of
    the table, less the omitted ones. *)
Definition written_fields (i : Invocation) : gset string :=
  ({[ "status" ]} ∪ table_fields (transition_of i)) ∖ omitted_fields i.

(** *** Sample worlds *)

Definition booking_b1 (status : string) : gmap string value :=
  list_to_map [("id", VString "b1"); ("provider_user_id", VString "u1");
               ("status", VString status); ("customer_id", VString "c7")].

Definition world_of (caller : option string) (status : string)
    (faults : list (option string)) : World :=
  {| user := (λ i, {| user_id := i |}) <$> caller;
     clock := "2024-05-01T10:00:00.000Z";
     bookings := {[ "b1" := booking_b1 status ]};
     faults := faults;
     requests := [] |}.

(** A pending booking of [u1] that already carries notes, alone in its
    table, with [u1] signed in. *)
Definition booking_noted : gmap string value :=
  list_to_map [("id", VString "b1"); ("provider_user_id", VString "u1");
               ("status", VString "pending");
               ("provider_notes", VString "old")].

Definition world_noted : World :=
  {| user := Some {| user_id := "u1" |};
     clock := "2024-05-01T10:00:00.000Z";
     bookings := {[ "b1" := booking_noted ]};
     faults := [];
     requests := [] |}.

End Bookings.

(** ** The favorites ([useFavorites]) *)

Module Favorites.

Record Favorite := {
  id : string;
  customer_id : string;
  provider_user_id : string;
  created_at : string;
}.

Global Instance Favorite_eq_dec : EqDecision Favorite.
Proof. solve_decision. Defined.

(** The argument of [toast]; [variant] is absent or ['destructive']. *)
Record Toast := {
  title : string;
  description : string;
  variant : option string;
}.

(** A remote call on the [favorites] table. *)
Inductive Request :=
  | Select (customer : string)
  | Insert (customer provider : string)
  | Delete (customer provider : string).

(** An awaited remote call either resolves to a reply or rejects. *)
Inductive Answer (A : Type) :=
  | Resolves (reply : Reply A)
  | Rejects (e : Exn).
Arguments Resolves {A} reply.
Arguments Rejects {A} e.

(** The remote store as the hook sees it: what each call answers.  The
    [data] of a select may be [null]. *)
Record Remote := {
  select_eq : string → Answer (option (list Favorite));
  insert_single : string → string → Answer Favorite;
  delete_eq : string → string → Answer unit;
}.

(** The state of the hook ([useState]), the notifications shown and the
    remote calls issued so far. *)
Record Hook := {
  favorites : list Favorite;
  loading : bool;
  toasts : list Toast;
  requests : list Request;
}.

Definition setFavorites (updater : list Favorite → list Favorite)
    : M Hook unit :=
  modify (λ h, {| favorites := updater (favorites h); loading := loading h;
                  toasts := toasts h; requests := requests h |}).

Definition setLoading (b : bool) : M Hook unit :=
  modify (λ h, {| favorites := favorites h; loading := b;
                  toasts := toasts h; requests := requests h |}).

Definition toast (t : Toast) : M Hook unit :=
  modify (λ h, {| favorites := favorites h; loading := loading h;
                  toasts := toasts h ++ [t]; requests := requests h |}).

Definition issue (r : Request) : M Hook unit :=
  modify (λ h, {| favorites := favorites h; loading := loading h;
                  toasts := toasts h; requests := requests h ++ [r] |}).

(** [await] of a remote call: the call is issued, then its answer is
    either the reply or a thrown exception. *)
Definition await {A} (r : Request) (answer : Answer A) : M Hook (Reply A) :=
  (issue r ;;
   match answer with
   | Resolves reply => ret reply
   | Rejects e => throw e
   end)%hook.

(** [user.id], read after [user?.id] was found truthy. *)
Definition dot_id (user : option User) : string :=
  match user with
  | Some u => user_id u
  | None => ""
  end.

Section hook.
Variable user : option User.
Variable remote : Remote.

Definition loadFavorites : M Hook unit :=
  if falsy (optional_id user) then setFavorites (λ _, [])
  else
    try_finally
      (try_catch
         (setLoading true ;;
          reply <- await (Select (dot_id user))
                         (select_eq remote (dot_id user)) ;;
          match reply with
          | Failed error =>
              toast {| title := "Error";
                       description := "Failed to load favorites. Please try again.";
                       variant := Some "destructive" |}
          | Data data => setFavorites (λ _, default [] data)
          end)%hook
         (λ error,
            toast {| title := "Error";
                     description := "An unexpected error occurred while loading favorites.";
                     variant := Some "destructive" |}))
      (setLoading false).

(** The [favorites] constant of the render that made the callback
    ([useState], and the dependency list of [useCallback]): the list
    [addToFavorites] searches for a duplicate.  It is the state as that
    render saw it; only the updater passed to [setFavorites] sees the state
    at the time it is applied. *)
Variable rendered : list Favorite.

Definition addToFavorites (providerUserId : string) : M Hook bool :=
  if falsy (optional_id user) then
    (toast {| title := "Authentication Required";
              description := "Please log in to add favorites.";
              variant := Some "destructive" |} ;;
     ret false)%hook
  else
    try_catch
      (match find (λ fav, bool_decide (provider_user_id fav = providerUserId))
                  rendered with
       | Some existingFavorite =>
           toast {| title := "Already in Favorites";
                    description := "This provider is already in your favorites.";
                    variant := Some "destructive" |} ;;
           ret false
       | None =>
           reply <- await (Insert (dot_id user) providerUserId)
                          (insert_single remote (dot_id user) providerUserId) ;;
           match reply with
           | Failed error =>
               toast {| title := "Error";
                        description := "Failed to add to favorites. Please try again.";
                        variant := Some "destructive" |} ;;
               ret false
           | Data data =>
               setFavorites (λ prev, prev ++ [data]) ;;
               toast {| title := "Added to Favorites";
                        description := "Provider has been added to your favorites.";
                        variant := None |} ;;
               ret true
           end
       end)%hook
      (λ error,
         toast {| title := "Error";
                  description := "Failed to add to favorites. Please try again.";
                  variant := Some "destructive" |} ;;
         ret false)%hook.

Definition removeFromFavorites (providerUserId : string) : M Hook bool :=
  if falsy (optional_id user) then ret false
  else
    try_catch
      (reply <- await (Delete (dot_id user) providerUserId)
                      (delete_eq remote (dot_id user) providerUserId) ;;
       match reply with
       | Failed error =>
           toast {| title := "Error";
                    description := "Failed to remove from favorites. Please try again.";
                    variant := Some "destructive" |} ;;
           ret false
       | Data _ =>
           setFavorites
             (filter (λ fav, provider_user_id fav ≠ providerUserId)) ;;
           toast {| title := "Removed from Favorites";
                    description := "Provider has been removed from your favorites.";
                    variant := None |} ;;
           ret true
       end)%hook
      (λ error,
         toast {| title := "Error";
                  description := "Failed to remove from favorites. Please try again.";
                  variant := Some "destructive" |} ;;
         ret false)%hook.

End hook.

(** [isFavorite] reads the [favorites] of the current state. *)
Definition isFavorite (h : Hook) (providerUserId : string) : bool :=
  existsb (λ fav, bool_decide (provider_user_id fav = providerUserId))
          (favorites h).

(** The user is authenticated: [user?.id] is truthy. *)
Definition authenticated (user : option User) : Prop :=
  falsy (optional_id user) = false.

(** The toasts of the failure paths carry this variant. *)
Definition destructive (t : Toast) : Prop := variant t = Some "destructive".

(** One more toast was shown, and it is a destructive one. *)
Definition notified (h h' : Hook) : Prop :=
  ∃ t, toasts h' = toasts h ++ [t] ∧ destructive t.

(** *** Sample remotes and states *)

Definition favorite_of (customer provider : string) : Favorite :=
  {| id := "fav-" +:+ provider; customer_id := customer;
     provider_user_id := provider;
     created_at := "2024-05-01T10:00:00.000Z" |}.

(** A store that serves every call. *)
Definition remote_serving (table : list Favorite) : Remote :=
  {| select_eq customer :=
       Resolves (Data (Some (filter (λ fav, customer_id fav = customer) table)));
     insert_single customer provider :=
       Resolves (Data (favorite_of customer provider));
     delete_eq _ _ := Resolves (Data tt) |}.

(** A store that refuses every call. *)
Definition remote_refusing : Remote :=
  {| select_eq _ := Resolves (Failed "permission denied");
     insert_single _ _ := Resolves (Failed "permission denied");
     delete_eq _ _ := Resolves (Failed "permission denied") |}.

(** A store that cannot be reached: every awaited call rejects. *)
Definition remote_unreachable : Remote :=
  {| select_eq _ := Rejects (Error "Failed to fetch");
     insert_single _ _ := Rejects (Error "Failed to fetch");
     delete_eq _ _ := Rejects (Error "Failed to fetch") |}.

Definition hook_with (favorites : list Favorite) : Hook :=
  {| favorites := favorites; loading := false; toasts := []; requests := [] |}.

Definition customer_c7 : option User := Some {| user_id := "c7" |}.

(** Runs an operation of the hook down to its paths. *)
Ltac hook_run :=
  unfold loadFavorites, addToFavorites, removeFromFavorites, try_finally,
    try_catch, await, setFavorites, setLoading, toast, issue, bind, ret,
    throw, gets, modify;
  cbn [favorites loading toasts requests].

End Favorites.


(** ** The mutations with their handlers ([useMutation]) *)

Module Mutations.

(** What the handlers act on, beside the world of the mutation functions:
    the toasts shown and the query keys invalidated so far. *)
Record Client := {
  world : Bookings.World;
  toasts : list Favorites.Toast;
  invalidated : list (list string);
}.

(** A mutation function run inside the client. *)
Definition lift {A} (m : M Bookings.World A) : M Client A :=
  λ c, match m (world c) with
       | (r, w) => (r, {| world := w; toasts := toasts c;
                          invalidated := invalidated c |})
       end.

Definition toast (t : Favorites.Toast) : M Client unit :=
  modify (λ c, {| world := world c; toasts := toasts c ++ [t];
                  invalidated := invalidated c |}).

(** [queryClient.invalidateQueries({ queryKey })] *)
Definition invalidateQueries (queryKey : list string) : M Client unit :=
  modify (λ c, {| world := world c; toasts := toasts c;
                  invalidated := invalidated c ++ [queryKey] |}).

(** [error.message] *)
Definition message (error : Exn) : string :=
  match error with
  | Error message | PostgrestError message => message
  end.

(** [a || b] on strings: the empty string is falsy. *)
Definition or_else (a b : string) : string :=
  if bool_decide (a = "") then b else a.

(** A mutation of [useMutation] run once: the mutation function, then
    [onSuccess] when it returned, [onError] when anything threw; the
    outcome is the one of the mutation function. *)
Definition useMutation {A} (mutationFn : M Bookings.World A)
    (onSuccess : M Client unit) (onError : Exn → M Client unit) : M Client A :=
  try_catch
    (data <- lift mutationFn ;; onSuccess ;; ret data)%hook
    (λ error, onError error ;; throw error)%hook.

Definition acceptBooking (bookingId : string) (notes : option string)
    : M Client Bookings.Outcome :=
  useMutation (Bookings.acceptBooking bookingId notes)
    (invalidateQueries ["bookings"] ;;
     invalidateQueries ["provider-bookings"] ;;
     toast {| Favorites.title := "Booking Accepted";
              Favorites.description := "The booking has been accepted successfully.";
              Favorites.variant := None |})%hook
    (λ error,
       toast {| Favorites.title := "Error";
                Favorites.description :=
                  or_else (message error)
                          "Failed to accept booking. Please try again.";
                Favorites.variant := Some "destructive" |}).

Definition markInProgress (bookingId : string) (notes : option string)
    : M Client Bookings.Outcome :=
  useMutation (Bookings.markInProgress bookingId notes)
    (invalidateQueries ["bookings"] ;;
     invalidateQueries ["provider-bookings"] ;;
     toast {| Favorites.title := "Booking Started";
              Favorites.description := "The booking has been marked as in progress.";
              Favorites.variant := None |})%hook
    (λ error,
       toast {| Favorites.title := "Error";
                Favorites.description :=
                  or_else (message error)
                          "Failed to update booking status. Please try again.";
                Favorites.variant := Some "destructive" |}).

Definition completeBooking (bookingId : string) (notes : option string)
    : M Client Bookings.Outcome :=
  useMutation (Bookings.completeBooking bookingId notes)
    (invalidateQueries ["bookings"] ;;
     invalidateQueries ["provider-bookings"] ;;
     toast {| Favorites.title := "Booking Completed";
              Favorites.description := "The booking has been marked as completed.";
              Favorites.variant := None |})%hook
    (λ error,
       toast {| Favorites.title := "Error";
                Favorites.description :=
                  or_else (message error)
                          "Failed to complete booking. Please try again.";
                Favorites.variant := Some "destructive" |}).

Definition cancelBooking (bookingId : string) (reason : string)
    : M Client Bookings.Outcome :=
  useMutation (Bookings.cancelBooking bookingId reason)
    (invalidateQueries ["bookings"] ;;
     invalidateQueries ["provider-bookings"] ;;
     toast {| Favorites.title := "Booking Cancelled";
              Favorites.description := "The booking has been cancelled successfully.";
              Favorites.variant := None |})%hook
    (λ error,
       toast {| Favorites.title := "Error";
                Favorites.description :=
                  or_else (message error)
                          "Failed to cancel booking. Please try again.";
                Favorites.variant := Some "destructive" |}).

(** The four mutations as one family. *)
Definition mutate (i : Bookings.Invocation) : M Client Bookings.Outcome :=
  match i with
  | Bookings.CallAccept bookingId notes => acceptBooking bookingId notes
  | Bookings.CallStart bookingId notes => markInProgress bookingId notes
  | Bookings.CallComplete bookingId notes => completeBooking bookingId notes
  | Bookings.CallCancel bookingId reason => cancelBooking bookingId reason
  end.

(** The toast of [onSuccess], and the description [onError] falls back on,
    mutation by mutation. *)
Definition success_toast (t : Bookings.Transition) : Favorites.Toast :=
  match t with
  | Bookings.Accept =>
      {| Favorites.title := "Booking Accepted";
         Favorites.description := "The booking has been accepted successfully.";
         Favorites.variant := None |}
  | Bookings.Start =>
      {| Favorites.title := "Booking Started";
         Favorites.description := "The booking has been marked as in progress.";
         Favorites.variant := None |}
  | Bookings.Complete =>
      {| Favorites.title := "Booking Completed";
         Favorites.description := "The booking has been marked as completed.";
         Favorites.variant := None |}
  | Bookings.Cancel =>
      {| Favorites.title := "Booking Cancelled";
         Favorites.description := "The booking has been cancelled successfully.";
         Favorites.variant := None |}
  end.

Definition fallback (t : Bookings.Transition) : string :=
  match t with
  | Bookings.Accept => "Failed to accept booking. Please try again."
  | Bookings.Start => "Failed to update booking status. Please try again."
  | Bookings.Complete => "Failed to complete booking. Please try again."
  | Bookings.Cancel => "Failed to cancel booking. Please try again."
  end.

Definition error_toast (t : Bookings.Transition) (error : Exn)
    : Favorites.Toast :=
  {| Favorites.title := "Error";
     Favorites.description := or_else (message error) (fallback t);
     Favorites.variant := Some "destructive" |}.

(** The order of the lifecycle: the transitions whose precondition holds
    right after a transition went through. *)
Definition follows (t t' : Bookings.Transition) : bool :=
  match t, t' with
  | Bookings.Accept, Bookings.Start
  | Bookings.Accept, Bookings.Cancel
  | Bookings.Start, Bookings.Complete
  | Bookings.Start, Bookings.Cancel => true
  | _, _ => false
  end.

Definition client_of (w : Bookings.World) : Client :=
  {| world := w; toasts := []; invalidated := [] |}.

(** A world whose only booking, [b1], is the given row. *)
Definition world_with (caller : option string) (row : gmap string value)
    : Bookings.World :=
  {| Bookings.user := (λ i, {| user_id := i |}) <$> caller;
     Bookings.clock := "2024-05-01T10:00:00.000Z";
     Bookings.bookings := {[ "b1" := row ]};
     Bookings.faults := [];
     Bookings.requests := [] |}.

End Mutations.

(** * Properties of the booking transitions *)

Module BookingsFacts.
Import Bookings.

Lemma includes_terminal (v : value) :
  includes [VString "cancelled"; VString "completed"] v
  = negb (table_precondition Cancel v).
Proof.
  unfold includes, table_precondition.
  rewrite <- bool_decide_not. apply bool_decide_ext.
  rewrite !elem_of_cons, elem_of_nil.
  destruct (decide (v = VString "cancelled")),
    (decide (v = VString "completed")); tauto.
Qed.

(** Every mutation function of the source is the pattern of section 4.2
    instantiated with its row of the table. *)
Lemma mutationFn_table (i : Invocation) (w : World) :
  mutationFn i w
  = table_run (transition_of i) (target i) (payload_of i w) w.
Proof.
  destruct i as [b n|b n|b n|b r]; destruct w as [u c bs fs rq];
    unfold mutationFn, acceptBooking, markInProgress, completeBooking,
      cancelBooking, table_run, select_single, update, fetch_reply,
      after_fetch, after_update, next_fault, useAuth, now, bind, gets,
      modify, throw, ret, fault_at;
    cbn [user clock bookings faults requests set_faults set_bookings issue
         transition_of target payload_of];
    destruct (falsy (optional_id u)); try reflexivity;
    destruct fs as [|[e|] [|[e'|] fs]]; cbn -[includes]; try reflexivity;
    destruct (bs !! b) as [row|]; cbn -[includes]; try reflexivity;
    unfold strict_eq;
    destruct (bool_decide (prop row "provider_user_id" = optional_id u));
    cbn -[includes]; try reflexivity;
    rewrite ?includes_terminal; cbn [table_precondition];
    match goal with
    | |- context [negb ?c] => destruct c; cbn; reflexivity
    end.
Qed.

Lemma bookings_after_fetch (b : string) (w : World) :
  bookings (after_fetch b w) = bookings w.
Proof. reflexivity. Qed.

Lemma updates_after_fetch (b : string) (w : World) :
  updates (after_fetch b w) = updates w.
Proof.
  unfold updates, after_fetch. cbn. rewrite omap_app. cbn.
  by rewrite app_nil_r.
Qed.

Lemma updates_after_update (b : string) (p : gmap string value) (w : World) :
  updates (after_update b p w) = updates w ++ [(b, p)].
Proof.
  unfold updates, after_update.
  destruct (default None (head (faults w))); cbn; by rewrite omap_app.
Qed.

Lemma bookings_after_update (b : string) (p : gmap string value) (w : World) :
  bookings (after_update b p (after_fetch b w))
  = match fault_at 1 w with
    | Some _ => bookings w
    | None => alter (overwrite p) b (bookings w)
    end.
Proof.
  unfold after_update, after_fetch, fault_at.
  destruct w as [u c bs [|f [|[e|] fs]] rq]; reflexivity.
Qed.

(** A column of an updated row: the value of the body when the body has
    one, the former value otherwise. *)
Lemma lookup_overwrite (p row : gmap string value) (k : string) :
  overwrite p row !! k
  = match p !! k with
    | Some VUndefined | None => row !! k
    | Some v => Some v
    end.
Proof.
  unfold overwrite, json. rewrite lookup_union, lookup_omap.
  destruct (p !! k) as [[]|]; destruct (row !! k); reflexivity.
Qed.

Lemma fetch_reply_found (b : string) (w : World) (booking : gmap string value) :
  fetch_reply b w = Data booking ↔
  fault_at 0 w = None ∧ bookings w !! b = Some booking.
Proof.
  unfold fetch_reply.
  destruct (fault_at 0 w); [intuition congruence|].
  destruct (bookings w !! b); intuition congruence.
Qed.

Lemma falsy_authenticated (w : World) (caller : string) :
  authenticated w caller →
  falsy (optional_id (user w)) = false ∧
  optional_id (user w) = VString caller.
Proof.
  intros [-> Hne]. cbn. by rewrite bool_decide_eq_false_2.
Qed.

(** With an authenticated caller and the booking fetched, what remains of
    the pattern: authorization, precondition, update. *)
Lemma table_run_fetched (t : Transition) (b : string) (p : gmap string value)
    (w : World) (caller : string) (booking : gmap string value) :
  authenticated w caller →
  fetch_reply b w = Data booking →
  table_run t b p w
  = if negb (bool_decide (prop booking "provider_user_id" = VString caller))
    then (Throw (thrown t Authorization), after_fetch b w)
    else if negb (table_precondition t (prop booking "status"))
    then (Throw (thrown t Precondition), after_fetch b w)
    else (match fault_at 1 w with
          | Some error => Throw (PostgrestError error)
          | None => Return {| bookingId := b; status := table_status t |}
          end, after_update b p (after_fetch b w)).
Proof.
  intros [Hf Hid]%falsy_authenticated Hb. unfold table_run, strict_eq.
  rewrite Hf, Hb, Hid.
  repeat (destruct (negb _); [reflexivity|]).
  destruct (fault_at 1 w); reflexivity.
Qed.

Lemma dom_payload_of (i : Invocation) (w : World) :
  dom (payload_of i w) = {[ "status" ]} ∪ table_fields (transition_of i).
Proof.
  destruct i; cbn; rewrite !dom_insert_L, dom_empty_L; set_solver.
Qed.


(** C3. Each of the four transitions checks in this order and throws at the
    first check that fails: authentication (no remote call is made), the
    re-fetch of the booking (refused by the store, or no such row),
    authorization against [provider_user_id], then the precondition on the
    status.  In particular a booking of another provider whose status also
    violates the precondition fails with the authorization error, which is
    not the invalid-transition error.  No failing check touches the table
    or issues an update. *)
Theorem transition_checks_in_order (i : Invocation) (w : World) :
  let t := transition_of i in
  let b := target i in
  (falsy (optional_id (user w)) = true →
     mutationFn i w = (Throw (thrown t Authentication), w))
  ∧ (∀ caller, authenticated w caller →
       (fault_at 0 w ≠ None ∨ bookings w !! b = None) →
       mutationFn i w = (Throw (thrown t Fetch), after_fetch b w))
  ∧ (∀ caller booking, authenticated w caller →
       fault_at 0 w = None → bookings w !! b = Some booking →
       prop booking "provider_user_id" ≠ VString caller →
       mutationFn i w = (Throw (thrown t Authorization), after_fetch b w))
  ∧ (∀ caller booking, authenticated w caller →
       fault_at 0 w = None → bookings w !! b = Some booking →
       prop booking "provider_user_id" = VString caller →
       table_precondition t (prop booking "status") = false →
       mutationFn i w = (Throw (thrown t Precondition), after_fetch b w))
  ∧ thrown t Authorization ≠ thrown t Precondition
  ∧ bookings (after_fetch b w) = bookings w
  ∧ updates (after_fetch b w) = updates w.
Proof.
  intros t b. rewrite mutationFn_table. fold t b.
  split; [|split; [|split; [|split; [|split; [|split]]]]].
  - intros Hf. unfold table_run. by rewrite Hf.
  - intros caller [Hf _]%falsy_authenticated Hno.
    unfold table_run, fetch_reply. rewrite Hf.
    destruct (fault_at 0 w) as [e|]; [reflexivity|].
    destruct Hno as [Hno| ->]; [by destruct Hno | reflexivity].
  - intros caller booking Hauth H0 Hb Hne.
    rewrite (table_run_fetched t b _ w caller booking Hauth)
      by (by apply fetch_reply_found).
    by rewrite bool_decide_eq_false_2.
  - intros caller booking Hauth H0 Hb Heq Hpre.
    rewrite (table_run_fetched t b _ w caller booking Hauth)
      by (by apply fetch_reply_found).
    by rewrite bool_decide_eq_true_2, Hpre.
  - destruct t; discriminate.
  - apply bookings_after_fetch.
  - apply updates_after_fetch.
Qed.

(** The order of the checks on a booking of provider [u1] that is already
    completed, accepted by caller [u2]: authorization fails first. *)
Lemma transition_checks_in_order_witness :
  mutationFn (CallAccept "b1" None) (world_of (Some "u2") "completed" [])
  = (Throw (Error "You are not authorized to accept this booking"),
     after_fetch "b1" (world_of (Some "u2") "completed" [])).
Proof.
  destruct (transition_checks_in_order (CallAccept "b1" None)
              (world_of (Some "u2") "completed" []))
    as (_ & _ & Hauthz & _).
  apply (Hauthz "u2" (booking_b1 "completed")).
  - split; [reflexivity | discriminate].
  - reflexivity.
  - vm_compute. reflexivity.
  - vm_compute. discriminate.
Defined.

(** Each column of the body of a call: a string when the call writes the
    column, absent or [undefined] otherwise. *)
Lemma payload_lookup_cases (i : Invocation) (w : World) (k : string) :
  (k ∈ written_fields i ∧ ∃ s, payload_of i w !! k = Some (VString s))
  ∨ ((k ∉ written_fields i)
     ∧ (payload_of i w !! k = None ∨ payload_of i w !! k = Some VUndefined)).
Proof.
  assert (Hin : ∀ (a b c : string) (O : gset string),
             k ∈ ({[ a ]} ∪ {[ b; c ]}) ∖ O ↔
             (k = a ∨ k = b ∨ k = c) ∧ k ∉ O).
  { intros a b c O.
    rewrite elem_of_difference, !elem_of_union, !elem_of_singleton. tauto. }
  assert (Hempty : k ∉ (∅ : gset string)) by apply not_elem_of_empty.
  unfold written_fields.
  destruct i as [b [n|]|b [n|]|b [n|]|b r];
    cbn [transition_of table_fields omitted_fields]; rewrite Hin;
    rewrite ?elem_of_singleton;
    (destruct (decide (k = "status")) as [->|H1];
     [left; split; [split; [tauto | done] | eexists; reflexivity]|]);
    (destruct (decide (k = "provider_notes")) as [->|H2];
     [first [ left; split; [split; [tauto | done] | eexists; reflexivity]
            | right; split; [tauto | right; reflexivity]
            | right; split; [intros [[?|[?|?]] _]; discriminate
                            | left; reflexivity] ]|]);
    (destruct (decide (k = "cancellation_reason")) as [->|H3];
     [first [ left; split; [split; [tauto | done] | eexists; reflexivity]
            | right; split; [intros [[?|[?|?]] _]; discriminate
                            | left; reflexivity] ]|]);
    (destruct (decide (k = "accepted_at")) as [->|H4];
     [first [ left; split; [split; [tauto | done] | eexists; reflexivity]
            | right; split; [intros [[?|[?|?]] _]; discriminate
                            | left; reflexivity] ]|]);
    (destruct (decide (k = "started_at")) as [->|H5];
     [first [ left; split; [split; [tauto | done] | eexists; reflexivity]
            | right; split; [intros [[?|[?|?]] _]; discriminate
                            | left; reflexivity] ]|]);
    (destruct (decide (k = "completed_at")) as [->|H6];
     [first [ left; split; [split; [tauto | done] | eexists; reflexivity]
            | right; split; [intros [[?|[?|?]] _]; discriminate
                            | left; reflexivity] ]|]);
    (destruct (decide (k = "cancelled_at")) as [->|H7];
     [first [ left; split; [split; [tauto | done] | eexists; reflexivity]
            | right; split; [intros [[?|[?|?]] _]; discriminate
                            | left; reflexivity] ]|]);
    (right; split; [tauto|]; left; cbn [payload_of list_to_map foldr];
     rewrite !lookup_insert_ne by done; apply lookup_empty).
Qed.

(** C4, as the code has it.  A transition that succeeds has issued one
    update, on its booking.  The object passed to that update names the
    status and the fields of its row of the table, and nothing else.  The
    columns it writes are those whose value is defined: the status (the
    resulting status of the table), the timestamp, the reason of a cancel,
    and [provider_notes] when notes are supplied.  When notes are omitted
    [provider_notes] is not written.  Every column that is not written
    keeps its value, and the other bookings are as they were. *)
Theorem successful_transition_frame (i : Invocation) (w w' : World)
    (o : Outcome) :
  mutationFn i w = (Return o, w') →
  let t := transition_of i in
  let b := target i in
  let payload := payload_of i w in
  ∃ booking,
    bookings w !! b = Some booking
    ∧ updates w' = updates w ++ [(b, payload)]
    ∧ dom payload = {[ "status" ]} ∪ table_fields t
    ∧ payload !! "status" = Some (VString (table_status t))
    ∧ bookings w' = <[b := overwrite payload booking]> (bookings w)
    ∧ dom (json payload) = written_fields i
    ∧ (∀ k, k ∈ written_fields i →
         ∃ s, payload !! k = Some (VString s)
              ∧ overwrite payload booking !! k = Some (VString s))
    ∧ (∀ k, k ∉ written_fields i →
         overwrite payload booking !! k = booking !! k)
    ∧ (∀ k v, payload !! k = Some v → v ≠ VUndefined →
         overwrite payload booking !! k = Some v)
    ∧ (∀ k, k ∉ ({[ "status" ]} ∪ table_fields t : gset string) →
         overwrite payload booking !! k = booking !! k)
    ∧ (∀ b', b' ≠ b → bookings w' !! b' = bookings w !! b').
Proof.
  intros Hrun t b payload. rewrite mutationFn_table in Hrun.
  fold t b payload in Hrun. unfold table_run in Hrun.
  destruct (falsy _); [discriminate|].
  destruct (fetch_reply b w) as [booking|e] eqn:Hb; [|discriminate].
  apply fetch_reply_found in Hb as [H0 Hb].
  destruct (negb _); [discriminate|].
  destruct (negb _); [discriminate|].
  destruct (fault_at 1 w) eqn:H1; [discriminate|].
  injection Hrun as _ <-.
  assert (Hbs : bookings (after_update b payload (after_fetch b w))
                = <[b := overwrite payload booking]> (bookings w)).
  { rewrite bookings_after_update, H1.
    apply map_eq. intros k. rewrite lookup_alter.
    destruct (decide (b = k)) as [<-|Hne].
    - by rewrite Hb, lookup_insert_eq.
    - by rewrite lookup_insert_ne. }
  exists booking.
  split; [exact Hb|].
  split; [by rewrite updates_after_update, updates_after_fetch|].
  split; [apply dom_payload_of|].
  split; [unfold payload, t; destruct i; reflexivity|].
  split; [exact Hbs|].
  split; [|split; [|split; [|split; [|split]]]].
  - apply set_eq. intros k. rewrite elem_of_dom. unfold json.
    rewrite lookup_omap.
    destruct (payload_lookup_cases i w k)
      as [[Hin [s Hs]] | [Hnin [Hk | Hk]]];
      (fold payload in Hs || fold payload in Hk);
      (rewrite Hs || rewrite Hk); cbn;
      (split; [intros Hsome | intros Hk']; try done);
      by destruct Hsome.
  - intros k Hk.
    destruct (payload_lookup_cases i w k)
      as [[_ [s Hs]] | [Hnin _]]; [|done].
    exists s. fold payload in Hs. by rewrite lookup_overwrite, Hs.
  - intros k Hk. rewrite lookup_overwrite.
    destruct (payload_lookup_cases i w k)
      as [[Hin _] | [_ [Hn | Hu]]]; [done | |].
    + fold payload in Hn. by rewrite Hn.
    + fold payload in Hu. by rewrite Hu.
  - intros k v Hk Hv. rewrite lookup_overwrite, Hk. by destruct v.
  - intros k Hk. rewrite lookup_overwrite.
    assert (Hdom : k ∉ dom payload)
      by (unfold payload; by rewrite dom_payload_of).
    apply not_elem_of_dom in Hdom. by rewrite Hdom.
  - intros b' Hne. rewrite Hbs. by rewrite lookup_insert_ne.
Qed.

(** The scenario of the specification: [u1] accepts the pending booking
    [b1] with notes [ok]. *)
Lemma successful_transition_frame_witness :
  ∃ booking,
    bookings (world_of (Some "u1") "pending" []) !! "b1" = Some booking
    ∧ overwrite (payload_of (CallAccept "b1" (Some "ok"))
                   (world_of (Some "u1") "pending" [])) booking
        !! "customer_id" = booking !! "customer_id".
Proof.
  destruct (successful_transition_frame (CallAccept "b1" (Some "ok"))
              (world_of (Some "u1") "pending" [])
              (snd (mutationFn (CallAccept "b1" (Some "ok"))
                      (world_of (Some "u1") "pending" [])))
              {| bookingId := "b1"; status := "accepted" |})
    as (booking & Hb & _ & _ & _ & _ & _ & _ & _ & _ & Hframe & _).
  - vm_compute. reflexivity.
  - exists booking. split; [exact Hb|]. apply Hframe. vm_compute.
    set_solver.
Defined.

(** C4 as stated fails when the optional notes are omitted: the accept goes
    through, [provider_notes] is a field of its row of the table, yet the
    request body does not carry it and the booking keeps the notes it
    had. *)
Lemma omitted_notes_counterexample :
  fst (mutationFn (CallAccept "b1" None) world_noted)
  = Return {| bookingId := "b1"; status := "accepted" |}
  ∧ "provider_notes" ∈ table_fields Accept
  ∧ json (payload_of (CallAccept "b1" None) world_noted) !! "provider_notes"
    = None
  ∧ bookings world_noted !! "b1" ≫= (.!! "provider_notes")
    = Some (VString "old")
  ∧ bookings (snd (mutationFn (CallAccept "b1" None) world_noted)) !! "b1"
      ≫= (.!! "provider_notes")
    = Some (VString "old").
Proof.
  split; [vm_compute; reflexivity|].
  split; [cbn; apply elem_of_union_l, elem_of_singleton; reflexivity|].
  split; [vm_compute; reflexivity|].
  split; vm_compute; reflexivity.
Qed.

(** C1, as the code has it.  With an authenticated caller and the booking
    fetched, [acceptBooking] issues its update exactly when the status is
    [pending] and [provider_user_id] is the caller; it succeeds exactly
    when, moreover, the store serves that update.  On success the row has
    status [accepted], [accepted_at] set to the clock and, when notes are
    supplied, [provider_notes] set to them.  For every other combination
    of status and caller it throws, issues no update and leaves the table
    as it was. *)
Theorem accept_succeeds_iff (b : string) (notes : option string)
    (w : World) (caller : string) (booking : gmap string value) :
  authenticated w caller →
  fetch_reply b w = Data booking →
  let guard := prop booking "status" = VString "pending"
               ∧ prop booking "provider_user_id" = VString caller in
  let r := fst (acceptBooking b notes w) in
  let w' := snd (acceptBooking b notes w) in
  ((∃ payload, updates w' = updates w ++ [(b, payload)]) ↔ guard)
  ∧ ((∃ o, r = Return o) ↔ guard ∧ fault_at 1 w = None)
  ∧ ((∃ o, r = Return o) →
       ∃ row, bookings w' !! b = Some row
              ∧ prop row "status" = VString "accepted"
              ∧ prop row "accepted_at" = VString (clock w)
              ∧ ∀ n, notes = Some n → prop row "provider_notes" = VString n)
  ∧ (¬ guard →
       (∃ e, r = Throw e) ∧ updates w' = updates w
       ∧ bookings w' = bookings w).
Proof.
  intros Hauth Hb guard r w'. unfold r, w'. clear r w'.
  change (acceptBooking b notes) with (mutationFn (CallAccept b notes)).
  rewrite mutationFn_table, (table_run_fetched _ _ _ _ _ _ Hauth Hb).
  cbn [transition_of target table_precondition table_status].
  apply fetch_reply_found in Hb as [_ Hb].
  assert (Hfresh : ∀ p : string * gmap string value,
             updates w ≠ updates w ++ [p]).
  { intros p Heq. apply (f_equal length) in Heq.
    rewrite length_app in Heq. cbn in Heq. lia. }
  assert (Hrefuse : ∀ e, ¬ guard →
    ((∃ payload, updates w = updates w ++ [(b, payload)]) ↔ guard)
    ∧ ((∃ o : Outcome, Throw e = Return o) ↔ guard ∧ fault_at 1 w = None)
    ∧ ((∃ o : Outcome, Throw e = Return o) →
         ∃ row, bookings w !! b = Some row
                ∧ prop row "status" = VString "accepted"
                ∧ prop row "accepted_at" = VString (clock w)
                ∧ ∀ n, notes = Some n →
                       prop row "provider_notes" = VString n)
    ∧ (¬ guard →
         (∃ e', @Throw Outcome e = Throw e') ∧ updates w = updates w
         ∧ bookings w = bookings w)).
  { intros e Hng. split; [|split; [|split]].
    - split; [intros [x Hx]; by destruct (Hfresh (b, x)) | tauto].
    - split; [intros [? ?]; discriminate | tauto].
    - intros [? ?]. discriminate.
    - eauto. }
  case_bool_decide as Hp; cbn [negb fst snd].
  2:{ rewrite updates_after_fetch, bookings_after_fetch.
      apply Hrefuse. unfold guard. tauto. }
  case_bool_decide as Hs; cbn [negb fst snd].
  2:{ rewrite updates_after_fetch, bookings_after_fetch.
      apply Hrefuse. unfold guard. tauto. }
  rewrite updates_after_update, updates_after_fetch, bookings_after_update.
  split; [|split; [|split]].
  - split; [done | eauto].
  - destruct (fault_at 1 w); split.
    + intros [? ?]. discriminate.
    + intros [_ ?]. discriminate.
    + done.
    + eauto.
  - destruct (fault_at 1 w); [intros [? ?]; discriminate|]. intros _.
    exists (overwrite (payload_of (CallAccept b notes) w) booking).
    rewrite lookup_alter_eq, Hb. split; [done|].
    unfold prop. rewrite !lookup_overwrite.
    repeat split; try reflexivity.
    intros n ->. reflexivity.
  - intros Hng. by destruct Hng.
Qed.

(** The scenario of the specification: [u1] accepts the pending booking
    [b1] with notes [ok]. *)
Lemma accept_succeeds_iff_witness :
  ∃ row,
    bookings (snd (acceptBooking "b1" (Some "ok")
                     (world_of (Some "u1") "pending" []))) !! "b1"
    = Some row
    ∧ prop row "status" = VString "accepted"
    ∧ prop row "accepted_at"
      = VString (clock (world_of (Some "u1") "pending" []))
    ∧ ∀ n, Some "ok" = Some n → prop row "provider_notes" = VString n.
Proof.
  assert (Hauth : authenticated (world_of (Some "u1") "pending" []) "u1")
    by (split; [reflexivity | discriminate]).
  assert (Hb : fetch_reply "b1" (world_of (Some "u1") "pending" [])
               = Data (booking_b1 "pending"))
    by (vm_compute; reflexivity).
  destruct (accept_succeeds_iff "b1" (Some "ok") _ _ _ Hauth Hb)
    as (_ & _ & Hrow & _).
  apply Hrow. exists {| bookingId := "b1"; status := "accepted" |}.
  vm_compute. reflexivity.
Defined.

(** C1 as stated fails: the booking is pending and the caller is its
    provider, yet [acceptBooking] throws, because the store refuses the
    update (the second remote call). *)
Lemma accept_refused_counterexample :
  let w := world_of (Some "u1") "pending" [None; Some "permission denied"] in
  authenticated w "u1"
  ∧ fetch_reply "b1" w = Data (booking_b1 "pending")
  ∧ prop (booking_b1 "pending") "status" = VString "pending"
  ∧ prop (booking_b1 "pending") "provider_user_id" = VString "u1"
  ∧ fst (acceptBooking "b1" (Some "ok") w)
    = Throw (PostgrestError "permission denied").
Proof.
  repeat split; try discriminate; vm_compute; reflexivity.
Qed.

(** C2, as the code has it.  With the booking fetched and its provider as
    the caller, [cancelBooking] issues its update from every status other
    than [cancelled] and [completed], and succeeds exactly when, moreover,
    the store serves that update; the row then has status [cancelled],
    [cancellation_reason] set to the reason and [cancelled_at] to the
    clock.  From [cancelled] and [completed] it throws the
    invalid-transition error and issues no update. *)
Theorem cancel_by_provider (b reason : string) (w : World) (caller : string)
    (booking : gmap string value) :
  authenticated w caller →
  fetch_reply b w = Data booking →
  prop booking "provider_user_id" = VString caller →
  let terminal := prop booking "status" = VString "cancelled"
                  ∨ prop booking "status" = VString "completed" in
  let r := fst (cancelBooking b reason w) in
  let w' := snd (cancelBooking b reason w) in
  ((∃ payload, updates w' = updates w ++ [(b, payload)]) ↔ ¬ terminal)
  ∧ ((∃ o, r = Return o) ↔ ¬ terminal ∧ fault_at 1 w = None)
  ∧ ((∃ o, r = Return o) →
       ∃ row, bookings w' !! b = Some row
              ∧ prop row "status" = VString "cancelled"
              ∧ prop row "cancellation_reason" = VString reason
              ∧ prop row "cancelled_at" = VString (clock w))
  ∧ (terminal →
       r = Throw (Error "This booking cannot be cancelled")
       ∧ updates w' = updates w ∧ bookings w' = bookings w).
Proof.
  intros Hauth Hb Hp terminal r w'. unfold r, w'. clear r w'.
  change (cancelBooking b reason) with (mutationFn (CallCancel b reason)).
  rewrite mutationFn_table, (table_run_fetched _ _ _ _ _ _ Hauth Hb).
  cbn [transition_of target table_precondition table_status].
  apply fetch_reply_found in Hb as [_ Hb].
  assert (Hfresh : ∀ p : string * gmap string value,
             updates w ≠ updates w ++ [p]).
  { intros p Heq. apply (f_equal length) in Heq.
    rewrite length_app in Heq. cbn in Heq. lia. }
  rewrite bool_decide_eq_true_2 by exact Hp. cbn [negb].
  case_bool_decide as Hs; cbn [negb fst snd thrown].
  - assert (Hnt : ¬ terminal) by (unfold terminal; tauto).
    rewrite updates_after_update, updates_after_fetch, bookings_after_update.
    split; [|split; [|split]].
    + split; [done | eauto].
    + destruct (fault_at 1 w); split.
      * intros [? ?]. discriminate.
      * intros [_ ?]. discriminate.
      * done.
      * eauto.
    + destruct (fault_at 1 w); [intros [? ?]; discriminate|]. intros _.
      exists (overwrite (payload_of (CallCancel b reason) w) booking).
      rewrite lookup_alter_eq, Hb. split; [done|].
      unfold prop. rewrite !lookup_overwrite. repeat split; reflexivity.
    + intros Ht. by destruct Hnt.
  - assert (Ht : terminal).
    { unfold terminal.
      destruct (decide (prop booking "status" = VString "cancelled"));
        [tauto|].
      destruct (decide (prop booking "status" = VString "completed"));
        tauto. }
    rewrite updates_after_fetch, bookings_after_fetch.
    split; [|split; [|split]].
    + split; [intros [x Hx]; by destruct (Hfresh (b, x)) | tauto].
    + split; [intros [? ?]; discriminate | tauto].
    + intros [? ?]. discriminate.
    + done.
Qed.

(** The scenario of the specification: cancelling a completed booking. *)
Lemma cancel_by_provider_witness :
  fst (cancelBooking "b1" "no longer needed"
         (world_of (Some "u1") "completed" []))
  = Throw (Error "This booking cannot be cancelled").
Proof.
  assert (Hauth : authenticated (world_of (Some "u1") "completed" []) "u1")
    by (split; [reflexivity | discriminate]).
  assert (Hb : fetch_reply "b1" (world_of (Some "u1") "completed" [])
               = Data (booking_b1 "completed"))
    by (vm_compute; reflexivity).
  assert (Hp : prop (booking_b1 "completed") "provider_user_id"
               = VString "u1")
    by (vm_compute; reflexivity).
  destruct (cancel_by_provider "b1" "no longer needed" _ _ _ Hauth Hb Hp)
    as (_ & _ & _ & Hterminal).
  apply Hterminal. right. vm_compute. reflexivity.
Defined.

(** C2 as stated fails: the booking is in progress and the caller is its
    provider, yet [cancelBooking] throws, because the store refuses the
    update. *)
Lemma cancel_refused_counterexample :
  let w := world_of (Some "u1") "in_progress" [None; Some "permission denied"] in
  authenticated w "u1"
  ∧ fetch_reply "b1" w = Data (booking_b1 "in_progress")
  ∧ prop (booking_b1 "in_progress") "provider_user_id" = VString "u1"
  ∧ prop (booking_b1 "in_progress") "status" = VString "in_progress"
  ∧ fst (cancelBooking "b1" "no longer needed" w)
    = Throw (PostgrestError "permission denied").
Proof.
  repeat split; try discriminate; vm_compute; reflexivity.
Qed.

End BookingsFacts.


(** * Properties of the favorites *)

Module FavoritesFacts.
Import Favorites.

Lemma find_provider_none (favs : list Favorite) (p : string) :
  find (λ fav, bool_decide (provider_user_id fav = p)) favs = None ↔
  ∀ fav, fav ∈ favs → provider_user_id fav ≠ p.
Proof.
  induction favs as [|f favs IH]; cbn.
  - split; [intros _ fav Hin; by apply elem_of_nil in Hin | done].
  - case_bool_decide as Hf.
    + split; [discriminate|]. intros Hall.
      destruct (Hall f); [apply elem_of_cons; by left | done].
    + rewrite IH. split.
      * intros Hall fav [->|Hin]%elem_of_cons; [done | by apply Hall].
      * intros Hall fav Hin. apply Hall, elem_of_cons. by right.
Qed.

Lemma isFavorite_spec (h : Hook) (p : string) :
  isFavorite h p = true ↔ ∃ fav, fav ∈ favorites h ∧ provider_user_id fav = p.
Proof.
  unfold isFavorite. rewrite existsb_exists. split.
  - intros (fav & Hin%list_elem_of_In & Hp%bool_decide_eq_true). eauto.
  - intros (fav & Hin%list_elem_of_In & Hp). exists fav.
    by rewrite bool_decide_eq_true.
Qed.

(** What [addToFavorites] returns and the state it leaves, path by path. *)
Lemma addToFavorites_paths (user : option User) (remote : Remote)
    (rendered : list Favorite) (p : string) (h : Hook) :
  addToFavorites user remote rendered p h
  = if falsy (optional_id user) then
      (Return false,
       {| favorites := favorites h; loading := loading h;
          toasts := toasts h ++
            [{| title := "Authentication Required";
                description := "Please log in to add favorites.";
                variant := Some "destructive" |}];
          requests := requests h |})
    else
      match find (λ fav, bool_decide (provider_user_id fav = p))
                 rendered with
      | Some _ =>
          (Return false,
           {| favorites := favorites h; loading := loading h;
              toasts := toasts h ++
                [{| title := "Already in Favorites";
                    description := "This provider is already in your favorites.";
                    variant := Some "destructive" |}];
              requests := requests h |})
      | None =>
          match insert_single remote (dot_id user) p with
          | Resolves (Data data) =>
              (Return true,
               {| favorites := favorites h ++ [data]; loading := loading h;
                  toasts := toasts h ++
                    [{| title := "Added to Favorites";
                        description := "Provider has been added to your favorites.";
                        variant := None |}];
                  requests := requests h ++ [Insert (dot_id user) p] |})
          | Resolves (Failed _) | Rejects _ =>
              (Return false,
               {| favorites := favorites h; loading := loading h;
                  toasts := toasts h ++
                    [{| title := "Error";
                        description := "Failed to add to favorites. Please try again.";
                        variant := Some "destructive" |}];
                  requests := requests h ++ [Insert (dot_id user) p] |})
          end
      end.
Proof.
  hook_run. destruct (falsy _); [reflexivity|].
  destruct (find _ _); [reflexivity|].
  destruct (insert_single _ _ _) as [[d|e]|e]; reflexivity.
Qed.

(** What [removeFromFavorites] returns and the state it leaves. *)
Lemma removeFromFavorites_paths (user : option User) (remote : Remote)
    (p : string) (h : Hook) :
  removeFromFavorites user remote p h
  = if falsy (optional_id user) then (Return false, h)
    else
      match delete_eq remote (dot_id user) p with
      | Resolves (Data _) =>
          (Return true,
           {| favorites := filter (λ fav, provider_user_id fav ≠ p)
                                  (favorites h);
              loading := loading h;
              toasts := toasts h ++
                [{| title := "Removed from Favorites";
                    description := "Provider has been removed from your favorites.";
                    variant := None |}];
              requests := requests h ++ [Delete (dot_id user) p] |})
      | Resolves (Failed _) | Rejects _ =>
          (Return false,
           {| favorites := favorites h; loading := loading h;
              toasts := toasts h ++
                [{| title := "Error";
                    description := "Failed to remove from favorites. Please try again.";
                    variant := Some "destructive" |}];
              requests := requests h ++ [Delete (dot_id user) p] |})
      end.
Proof.
  hook_run. destruct (falsy _); [reflexivity|].
  destruct (delete_eq _ _ _) as [[d|e]|e]; reflexivity.
Qed.

(** What [loadFavorites] leaves. *)
Lemma loadFavorites_paths (user : option User) (remote : Remote) (h : Hook) :
  loadFavorites user remote h
  = if falsy (optional_id user) then
      (Return tt,
       {| favorites := []; loading := loading h; toasts := toasts h;
          requests := requests h |})
    else
      match select_eq remote (dot_id user) with
      | Resolves (Data data) =>
          (Return tt,
           {| favorites := default [] data; loading := false;
              toasts := toasts h;
              requests := requests h ++ [Select (dot_id user)] |})
      | Resolves (Failed _) =>
          (Return tt,
           {| favorites := favorites h; loading := false;
              toasts := toasts h ++
                [{| title := "Error";
                    description := "Failed to load favorites. Please try again.";
                    variant := Some "destructive" |}];
              requests := requests h ++ [Select (dot_id user)] |})
      | Rejects _ =>
          (Return tt,
           {| favorites := favorites h; loading := false;
              toasts := toasts h ++
                [{| title := "Error";
                    description := "An unexpected error occurred while loading favorites.";
                    variant := Some "destructive" |}];
              requests := requests h ++ [Select (dot_id user)] |})
      end.
Proof.
  hook_run. destruct (falsy _); [reflexivity|].
  destruct (select_eq _ _) as [[d|e]|e]; reflexivity.
Qed.

(** C5, as the code has it.  With an authenticated user, adding a provider
    that an entry of the favorites of the render that made the callback
    already names returns [false], issues no remote call (so no insert) and
    leaves the local favorites as they were.  Those favorites are the local
    state as that render saw it: for the callback of the current render
    they are the local favorites themselves. *)
Theorem add_duplicate_refused (user : option User) (remote : Remote)
    (rendered : list Favorite) (p : string) (h : Hook) :
  authenticated user →
  (∃ fav, fav ∈ rendered ∧ provider_user_id fav = p) →
  ∃ h', addToFavorites user remote rendered p h = (Return false, h')
        ∧ requests h' = requests h
        ∧ favorites h' = favorites h.
Proof.
  intros Hauth (fav & Hin & Hp). rewrite addToFavorites_paths, Hauth.
  destruct (find _ _) eqn:Hfind; [eauto|].
  rewrite find_provider_none in Hfind. by destruct (Hfind fav Hin).
Qed.

(** The callback of the current render: the list searched is the state. *)
Lemma add_duplicate_refused_witness :
  ∃ h', addToFavorites customer_c7 (remote_serving [])
          (favorites (hook_with [favorite_of "c7" "p1"]))
          "p1" (hook_with [favorite_of "c7" "p1"]) = (Return false, h')
        ∧ requests h' = []
        ∧ favorites h' = [favorite_of "c7" "p1"].
Proof.
  apply (add_duplicate_refused customer_c7 (remote_serving [])
           (favorites (hook_with [favorite_of "c7" "p1"])) "p1"
           (hook_with [favorite_of "c7" "p1"])).
  - reflexivity.
  - exists (favorite_of "c7" "p1"). split; [apply list_elem_of_here | reflexivity].
Defined.

(** C5 as stated fails for a callback made by an earlier render: the local
    favorites already hold an entry of [p1], the favorites that callback
    closed over do not, and [addToFavorites] inserts again, returns [true]
    and leaves two entries of [p1]. *)
Lemma stale_callback_counterexample :
  let h := hook_with [favorite_of "c7" "p1"] in
  authenticated customer_c7
  ∧ favorite_of "c7" "p1" ∈ favorites h
  ∧ addToFavorites customer_c7 (remote_serving []) [] "p1" h
    = (Return true,
       {| favorites := [favorite_of "c7" "p1"; favorite_of "c7" "p1"];
          loading := false;
          toasts := [{| title := "Added to Favorites";
                        description := "Provider has been added to your favorites.";
                        variant := None |}];
          requests := [Insert "c7" "p1"] |}).
Proof.
  split; [reflexivity|]. split; [apply list_elem_of_here | reflexivity].
Qed.

(** C6. Right after an [addToFavorites p] that returned [true],
    [isFavorite p] holds, provided the record the insert returned names
    provider [p]; right after a [removeFromFavorites p] that returned
    [true], [isFavorite p] does not hold. *)
Theorem isFavorite_after (user : option User) (remote : Remote)
    (rendered : list Favorite) (p : string) (h h' : Hook) :
  (addToFavorites user remote rendered p h = (Return true, h') →
   (∀ data, insert_single remote (dot_id user) p = Resolves (Data data) →
            provider_user_id data = p) →
   isFavorite h' p = true)
  ∧ (removeFromFavorites user remote p h = (Return true, h') →
     isFavorite h' p = false).
Proof.
  split.
  - rewrite addToFavorites_paths. intros Hrun Hdata.
    destruct (falsy _); [discriminate|].
    destruct (find _ _); [discriminate|].
    destruct (insert_single _ _ _) as [[data|e]|e] eqn:Hins;
      try discriminate.
    injection Hrun as <-. apply isFavorite_spec. exists data. cbn.
    split; [apply elem_of_app; right; apply list_elem_of_here | eauto].
  - rewrite removeFromFavorites_paths. intros Hrun.
    destruct (falsy _); [discriminate|].
    destruct (delete_eq _ _ _) as [[u|e]|e]; try discriminate.
    injection Hrun as <-. apply not_true_is_false.
    intros (fav & Hin & Hp)%isFavorite_spec. cbn in Hin.
    apply list_elem_of_filter in Hin as [Hne _]. by destruct Hne.
Qed.

Lemma isFavorite_after_witness :
  isFavorite (snd (addToFavorites customer_c7 (remote_serving []) [] "p1"
                     (hook_with []))) "p1" = true
  ∧ isFavorite (snd (removeFromFavorites customer_c7 (remote_serving []) "p1"
                       (hook_with [favorite_of "c7" "p1"]))) "p1" = false.
Proof.
  split.
  - apply (proj1 (isFavorite_after customer_c7 (remote_serving []) [] "p1"
                    (hook_with []) _)).
    + reflexivity.
    + intros data [= <-]. reflexivity.
  - apply (proj2 (isFavorite_after customer_c7 (remote_serving []) [] "p1"
                    (hook_with [favorite_of "c7" "p1"]) _)).
    reflexivity.
Defined.

(** C7. With an authenticated user, when the query is refused or the
    awaited call rejects, [loadFavorites] shows a destructive toast and
    leaves the local favorites as they were; without an authenticated user
    it sets the local favorites to the empty list and issues no remote
    call. *)
Theorem loadFavorites_failure (user : option User) (remote : Remote)
    (h : Hook) :
  (authenticated user →
   (∃ error, select_eq remote (dot_id user) = Resolves (Failed error))
   ∨ (∃ e, select_eq remote (dot_id user) = Rejects e) →
   ∃ h', loadFavorites user remote h = (Return tt, h')
         ∧ favorites h' = favorites h
         ∧ notified h h')
  ∧ (¬ authenticated user →
     ∃ h', loadFavorites user remote h = (Return tt, h')
           ∧ favorites h' = []
           ∧ requests h' = requests h).
Proof.
  unfold authenticated. rewrite loadFavorites_paths. split.
  - intros -> [[error ->]|[e ->]];
      (eexists; split; [reflexivity|]; split; [reflexivity|]);
      eexists; split; reflexivity.
  - intros Hno. destruct (falsy _); [eauto | done].
Qed.

Lemma loadFavorites_failure_witness :
  (∃ h', loadFavorites customer_c7 remote_refusing
           (hook_with [favorite_of "c7" "p1"]) = (Return tt, h')
         ∧ favorites h' = [favorite_of "c7" "p1"]
         ∧ notified (hook_with [favorite_of "c7" "p1"]) h')
  ∧ (∃ h', loadFavorites None remote_refusing
             (hook_with [favorite_of "c7" "p1"]) = (Return tt, h')
           ∧ favorites h' = []
           ∧ requests h' = []).
Proof.
  split.
  - apply (proj1 (loadFavorites_failure customer_c7 remote_refusing
                    (hook_with [favorite_of "c7" "p1"]))).
    + reflexivity.
    + left. exists "permission denied". reflexivity.
  - apply (proj2 (loadFavorites_failure None remote_refusing
                    (hook_with [favorite_of "c7" "p1"]))).
    discriminate.
Defined.

(** C9. A [removeFromFavorites p] that returned [true] leaves the local
    favorites filtered: every entry naming provider [p] is gone, however
    many there were, and the entries naming another provider are all there,
    in their order. *)
Theorem remove_all_matching (user : option User) (remote : Remote)
    (p : string) (h h' : Hook) :
  removeFromFavorites user remote p h = (Return true, h') →
  favorites h' = filter (λ fav, provider_user_id fav ≠ p) (favorites h)
  ∧ (∀ fav, provider_user_id fav = p → fav ∉ favorites h')
  ∧ (∀ fav, fav ∈ favorites h → provider_user_id fav ≠ p →
            fav ∈ favorites h').
Proof.
  rewrite removeFromFavorites_paths. intros Hrun.
  destruct (falsy _); [discriminate|].
  destruct (delete_eq _ _ _) as [[u|e]|e]; try discriminate.
  injection Hrun as <-. cbn. split; [reflexivity|]. split.
  - intros fav Hp [Hne _]%list_elem_of_filter. by destruct Hne.
  - intros fav Hin Hne. by apply list_elem_of_filter.
Qed.

Lemma remove_all_matching_witness :
  favorites (snd (removeFromFavorites customer_c7 (remote_serving []) "p1"
                    (hook_with [favorite_of "c7" "p1"; favorite_of "c7" "p2";
                                favorite_of "c7" "p1"])))
  = [favorite_of "c7" "p2"].
Proof.
  destruct (remove_all_matching customer_c7 (remote_serving []) "p1"
              (hook_with [favorite_of "c7" "p1"; favorite_of "c7" "p2";
                          favorite_of "c7" "p1"]) _ eq_refl) as [-> _].
  reflexivity.
Defined.

(** C10. Whenever [addToFavorites] returns [false] the local favorites are
    what they were before the call; and it always returns, so the four
    failures (no user, duplicate, refused insert, rejected call) are all
    covered. *)
Theorem add_failure_keeps_favorites (user : option User) (remote : Remote)
    (rendered : list Favorite) (p : string) (h : Hook) :
  (∃ b h', addToFavorites user remote rendered p h = (Return b, h'))
  ∧ ∀ h', addToFavorites user remote rendered p h = (Return false, h') →
          favorites h' = favorites h.
Proof.
  rewrite addToFavorites_paths.
  destruct (falsy _); [split; [eauto | by intros h' [= <-]]|].
  destruct (find _ _); [split; [eauto | by intros h' [= <-]]|].
  destruct (insert_single _ _ _) as [[data|e]|e];
    (split; [eauto | by intros h' [= <-]]).
Qed.

Lemma add_failure_keeps_favorites_witness :
  favorites (snd (addToFavorites customer_c7 remote_unreachable
                    [favorite_of "c7" "p1"] "p2"
                    (hook_with [favorite_of "c7" "p1"])))
  = [favorite_of "c7" "p1"].
Proof.
  apply (proj2 (add_failure_keeps_favorites customer_c7 remote_unreachable
                  [favorite_of "c7" "p1"] "p2"
                  (hook_with [favorite_of "c7" "p1"]))).
  reflexivity.
Defined.

(** C8, as the code has it.  No favorites operation propagates an
    exception: [loadFavorites] returns (nothing), [addToFavorites] and
    [removeFromFavorites] return a boolean.  Every failure returns [false]:
    of [addToFavorites], no user, a duplicate, an insert refused or
    rejected; of [removeFromFavorites], no user, a delete refused or
    rejected; and [true] is returned only when the store served the call.
    Every [addToFavorites] that returns [false] has shown a destructive
    toast, the unauthenticated one included; with an authenticated user, so
    has every [removeFromFavorites] that returns [false] and every
    [loadFavorites] whose query was refused or rejected. *)
Theorem favorites_failures_reported (user : option User) (remote : Remote)
    (rendered : list Favorite) (h : Hook) :
  (∃ h', loadFavorites user remote h = (Return tt, h'))
  ∧ (∀ p, ∃ b h', addToFavorites user remote rendered p h = (Return b, h'))
  ∧ (∀ p, ∃ b h', removeFromFavorites user remote p h = (Return b, h'))
  ∧ (∀ p, ¬ authenticated user
          ∨ (∃ fav, fav ∈ rendered ∧ provider_user_id fav = p)
          ∨ (∃ error, insert_single remote (dot_id user) p
                      = Resolves (Failed error))
          ∨ (∃ e, insert_single remote (dot_id user) p = Rejects e) →
          ∃ h', addToFavorites user remote rendered p h = (Return false, h')
                ∧ notified h h')
  ∧ (∀ p h', addToFavorites user remote rendered p h = (Return true, h') →
             authenticated user
             ∧ (∀ fav, fav ∈ rendered → provider_user_id fav ≠ p)
             ∧ ∃ data, insert_single remote (dot_id user) p
                       = Resolves (Data data))
  ∧ (∀ p h', addToFavorites user remote rendered p h = (Return false, h') →
             notified h h')
  ∧ (∀ p, ¬ authenticated user →
          removeFromFavorites user remote p h = (Return false, h))
  ∧ (∀ p, authenticated user →
          (∃ error, delete_eq remote (dot_id user) p
                    = Resolves (Failed error))
          ∨ (∃ e, delete_eq remote (dot_id user) p = Rejects e) →
          ∃ h', removeFromFavorites user remote p h = (Return false, h')
                ∧ notified h h')
  ∧ (∀ p h', removeFromFavorites user remote p h = (Return true, h') →
             authenticated user
             ∧ delete_eq remote (dot_id user) p = Resolves (Data tt))
  ∧ (∀ p h', authenticated user →
             removeFromFavorites user remote p h = (Return false, h') →
             notified h h')
  ∧ (∀ h', authenticated user →
           (∃ error, select_eq remote (dot_id user) = Resolves (Failed error))
           ∨ (∃ e, select_eq remote (dot_id user) = Rejects e) →
           loadFavorites user remote h = (Return tt, h') →
           notified h h').
Proof.
  unfold authenticated, notified, destructive.
  split; [|split; [|split; [|split; [|split; [|split; [|split;
    [|split; [|split; [|split]]]]]]]]].
  - rewrite loadFavorites_paths. destruct (falsy _); [eauto|].
    destruct (select_eq _ _) as [[d|e]|e]; eauto.
  - intros p. rewrite addToFavorites_paths. destruct (falsy _); [eauto|].
    destruct (find _ _); [eauto|].
    destruct (insert_single _ _ _) as [[d|e]|e]; eauto.
  - intros p. rewrite removeFromFavorites_paths. destruct (falsy _); [eauto|].
    destruct (delete_eq _ _ _) as [[d|e]|e]; eauto.
  - intros p Hfail. rewrite addToFavorites_paths.
    destruct (falsy _) eqn:Hf; [eauto 6|].
    destruct (find _ _) eqn:Hfind; [eauto 6|].
    rewrite find_provider_none in Hfind.
    destruct Hfail as [Hno | [(fav & Hin & Hp) | [[error ->] | [e ->]]]].
    + by destruct Hno.
    + by destruct (Hfind fav Hin).
    + eauto 6.
    + eauto 6.
  - intros p h'. rewrite addToFavorites_paths.
    destruct (falsy _); [discriminate|].
    destruct (find _ _) eqn:Hfind; [discriminate|].
    rewrite find_provider_none in Hfind.
    destruct (insert_single _ _ _) as [[d|e]|e]; try discriminate.
    intros _. eauto.
  - intros p h'. rewrite addToFavorites_paths.
    destruct (falsy _); [intros [= <-]; eauto|].
    destruct (find _ _); [intros [= <-]; eauto|].
    destruct (insert_single _ _ _) as [[d|e]|e]; intros [= <-]; eauto.
  - intros p Hno. rewrite removeFromFavorites_paths.
    destruct (falsy _); [done | by destruct Hno].
  - intros p Hauth Hfail. rewrite removeFromFavorites_paths, Hauth.
    destruct Hfail as [[error ->] | [e ->]]; eauto 6.
  - intros p h'. rewrite removeFromFavorites_paths.
    destruct (falsy _); [discriminate|].
    destruct (delete_eq _ _ _) as [[[]|e]|e]; try discriminate. done.
  - intros p h' Hauth. rewrite removeFromFavorites_paths, Hauth.
    destruct (delete_eq _ _ _) as [[d|e]|e]; intros [= <-]; eauto.
  - intros h' Hauth Hfail. rewrite loadFavorites_paths, Hauth.
    destruct Hfail as [[error ->]|[e ->]]; intros [= <-]; eauto.
Qed.

Lemma favorites_failures_reported_witness :
  (∃ h', addToFavorites customer_c7 remote_refusing [] "p1" (hook_with [])
         = (Return false, h')
         ∧ notified (hook_with []) h')
  ∧ (∃ h', removeFromFavorites customer_c7 remote_refusing "p1" (hook_with [])
           = (Return false, h')
           ∧ notified (hook_with []) h')
  ∧ notified (hook_with [])
      (snd (loadFavorites customer_c7 remote_unreachable (hook_with []))).
Proof.
  destruct (favorites_failures_reported customer_c7 remote_refusing []
              (hook_with []))
    as (_ & _ & _ & Hadd & _ & _ & _ & Hremove & _).
  destruct (favorites_failures_reported customer_c7 remote_unreachable []
              (hook_with []))
    as (_ & _ & _ & _ & _ & _ & _ & _ & _ & _ & Hload).
  split; [|split].
  - apply (Hadd "p1"). right; right; left.
    exists "permission denied". reflexivity.
  - apply (Hremove "p1"); [reflexivity|]. left.
    exists "permission denied". reflexivity.
  - apply Hload; [reflexivity | | reflexivity].
    right. exists (Error "Failed to fetch"). reflexivity.
Defined.

(** C8 as stated fails on the authentication-required failure: without a
    user, [removeFromFavorites] returns [false] and shows nothing (the state
    is the one before the call), and [loadFavorites] clears the favorites
    and shows nothing. *)
Lemma unauthenticated_silent_counterexample :
  let h := hook_with [favorite_of "c7" "p1"] in
  removeFromFavorites None (remote_serving []) "p1" h = (Return false, h)
  ∧ toasts (snd (removeFromFavorites None (remote_serving []) "p1" h)) = []
  ∧ toasts (snd (loadFavorites None (remote_serving []) h)) = []
  ∧ ¬ notified h (snd (removeFromFavorites None (remote_serving []) "p1" h))
  ∧ ¬ notified h (snd (loadFavorites None (remote_serving []) h)).
Proof.
  repeat split; try reflexivity.
  - intros (t & Ht & _). cbn in Ht. discriminate.
  - intros (t & Ht & _). cbn in Ht. discriminate.
Qed.

End FavoritesFacts.


(** * Further properties of the booking transitions *)

Module BookingsExtra.
Import Bookings BookingsFacts.

Lemma falsy_false_authenticated (w : World) :
  falsy (optional_id (user w)) = false → ∃ caller, authenticated w caller.
Proof.
  unfold authenticated. destruct (user w) as [[i]|]; cbn; [|discriminate].
  intros Hi%bool_decide_eq_false. eauto.
Qed.

(** The world a run of the pattern leaves is the one it started in, the one
    after the re-fetch, or the one after the update of a fetched booking. *)
Lemma table_run_world (t : Transition) (b : string) (p : gmap string value)
    (w : World) :
  snd (table_run t b p w) = w
  ∨ snd (table_run t b p w) = after_fetch b w
  ∨ (∃ booking, fetch_reply b w = Data booking
                ∧ snd (table_run t b p w) = after_update b p (after_fetch b w)).
Proof.
  unfold table_run. destruct (falsy _); [by left|].
  destruct (fetch_reply b w) as [booking|e]; [|by right; left].
  destruct (negb _); [by right; left|].
  destruct (negb _); [by right; left|].
  right; right. exists booking. by destruct (fault_at 1 w).
Qed.

(** A run that returns went through every check and had its update
    served. *)
Lemma success_inv (i : Invocation) (w w' : World) (o : Outcome) :
  mutationFn i w = (Return o, w') →
  ∃ caller booking,
    authenticated w caller
    ∧ fetch_reply (target i) w = Data booking
    ∧ prop booking "provider_user_id" = VString caller
    ∧ table_precondition (transition_of i) (prop booking "status") = true
    ∧ fault_at 1 w = None
    ∧ w' = after_update (target i) (payload_of i w) (after_fetch (target i) w)
    ∧ o = {| bookingId := target i; status := table_status (transition_of i) |}.
Proof.
  rewrite mutationFn_table. unfold table_run.
  destruct (falsy _) eqn:Hf; [discriminate|].
  apply falsy_false_authenticated in Hf as [caller Hauth].
  destruct (falsy_authenticated _ _ Hauth) as [_ Hid]. rewrite Hid.
  destruct (fetch_reply _ w) as [booking|e]; [|discriminate].
  unfold strict_eq. case_bool_decide as Hp; [|discriminate]. cbn [negb].
  destruct (table_precondition _ _) eqn:Hpre; [|discriminate]. cbn [negb].
  destruct (fault_at 1 w) eqn:H1; [discriminate|].
  intros [= <- <-]. exists caller, booking. done.
Qed.

Lemma served_run (i : Invocation) (w : World) (caller : string)
    (booking : gmap string value) :
  authenticated w caller →
  fetch_reply (target i) w = Data booking →
  prop booking "provider_user_id" = VString caller →
  table_precondition (transition_of i) (prop booking "status") = true →
  fault_at 1 w = None →
  mutationFn i w
  = (Return {| bookingId := target i; status := table_status (transition_of i) |},
     after_update (target i) (payload_of i w) (after_fetch (target i) w)).
Proof.
  intros Hauth Hb Hp Hpre H1.
  rewrite mutationFn_table, (table_run_fetched _ _ _ _ _ _ Hauth Hb).
  by rewrite bool_decide_eq_true_2, Hpre, H1.
Qed.

Lemma user_after_update (b : string) (p : gmap string value) (w : World) :
  user (after_update b p (after_fetch b w)) = user w.
Proof.
  unfold after_update, after_fetch.
  by destruct (default None (head (faults _))).
Qed.

Lemma clock_after_update (b : string) (p : gmap string value) (w : World) :
  clock (after_update b p (after_fetch b w)) = clock w.
Proof.
  unfold after_update, after_fetch.
  by destruct (default None (head (faults _))).
Qed.

Lemma faults_after_update (b : string) (p : gmap string value) (w : World) :
  faults (after_update b p (after_fetch b w)) = tail (tail (faults w)).
Proof.
  unfold after_update, after_fetch.
  by destruct (default None (head (faults _))).
Qed.

Lemma requests_after_update (b : string) (p : gmap string value) (w : World) :
  requests (after_update b p (after_fetch b w))
  = requests w ++ [Select b; Update b p].
Proof.
  unfold after_update, after_fetch.
  destruct (default None (head (faults _))); cbn; by rewrite <- app_assoc.
Qed.

Lemma updates_after_update_fetch (b : string) (p : gmap string value)
    (w : World) :
  updates (after_update b p (after_fetch b w)) = updates w ++ [(b, p)].
Proof. by rewrite updates_after_update, updates_after_fetch. Qed.

(** The table after the update of a fetched booking: its row rewritten when
    the update was served, nothing otherwise. *)
Lemma table_after_update (b : string) (p : gmap string value) (w : World)
    (booking : gmap string value) :
  bookings w !! b = Some booking →
  bookings (after_update b p (after_fetch b w))
  = match fault_at 1 w with
    | Some _ => bookings w
    | None => <[b := overwrite p booking]> (bookings w)
    end.
Proof.
  intros Hb. rewrite bookings_after_update.
  destruct (fault_at 1 w); [reflexivity|].
  apply map_eq. intros k. rewrite lookup_alter.
  destruct (decide (b = k)) as [<-|Hne].
  - by rewrite Hb, lookup_insert_eq.
  - by rewrite lookup_insert_ne.
Qed.

Lemma payload_status (i : Invocation) (w : World) :
  payload_of i w !! "status" = Some (VString (table_status (transition_of i))).
Proof. destruct i; reflexivity. Qed.

Lemma payload_outside (i : Invocation) (w : World) (k : string) :
  k ∉ ({[ "status" ]} ∪ table_fields (transition_of i) : gset string) →
  payload_of i w !! k = None.
Proof. rewrite <- (dom_payload_of i w). apply not_elem_of_dom. Qed.

Lemma provider_not_written (i : Invocation) :
  "provider_user_id"
  ∉ ({[ "status" ]} ∪ table_fields (transition_of i) : gset string).
Proof.
  destruct i; cbn; rewrite !elem_of_union, !elem_of_singleton;
    intros [?|[?|?]]; discriminate.
Qed.

(** X1. A transition returns exactly when the caller is authenticated, the
    booking was fetched, the caller is its provider, the precondition of the
    table holds and the store serves the update; what it returns is the id
    of the booking with the resulting status of the table. *)
Theorem transition_succeeds_iff (i : Invocation) (w : World) :
  ((∃ o, fst (mutationFn i w) = Return o) ↔
   ∃ caller booking,
     authenticated w caller
     ∧ fault_at 0 w = None
     ∧ bookings w !! target i = Some booking
     ∧ prop booking "provider_user_id" = VString caller
     ∧ table_precondition (transition_of i) (prop booking "status") = true
     ∧ fault_at 1 w = None)
  ∧ (∀ o, fst (mutationFn i w) = Return o →
          o = {| bookingId := target i;
                 status := table_status (transition_of i) |}).
Proof.
  split; [split|].
  - intros [o Ho]. destruct (mutationFn i w) as [r w'] eqn:Hrun.
    cbn in Ho. subst r.
    apply success_inv in Hrun
      as (caller & booking & Hauth & Hb & Hp & Hpre & H1 & _).
    apply fetch_reply_found in Hb as [H0 Hb]. by exists caller, booking.
  - intros (caller & booking & Hauth & H0 & Hb & Hp & Hpre & H1).
    rewrite (served_run i w caller booking); eauto.
    by apply fetch_reply_found.
  - intros o Ho. destruct (mutationFn i w) as [r w'] eqn:Hrun.
    cbn in Ho. subst r.
    by apply success_inv in Hrun as (_ & _ & _ & _ & _ & _ & _ & _ & ->).
Qed.

Lemma transition_succeeds_iff_witness :
  ∃ o, fst (mutationFn (CallStart "b1" None)
              (world_of (Some "u1") "accepted" [])) = Return o.
Proof.
  destruct (transition_succeeds_iff (CallStart "b1" None)
              (world_of (Some "u1") "accepted" [])) as [[_ Hback] _].
  apply Hback. exists "u1", (booking_b1 "accepted").
  split; [split; [reflexivity | discriminate]|].
  split; [reflexivity|].
  split; [apply lookup_singleton_eq|].
  repeat split; reflexivity.
Defined.

(** One served transition from a world whose store refuses nothing: the
    world it leaves is again such a world, with the row rewritten. *)
Lemma served_step (i : Invocation) (w : World) (caller : string)
    (booking : gmap string value) :
  authenticated w caller →
  faults w = [] →
  bookings w !! target i = Some booking →
  prop booking "provider_user_id" = VString caller →
  table_precondition (transition_of i) (prop booking "status") = true →
  ∃ w', mutationFn i w
        = (Return {| bookingId := target i;
                     status := table_status (transition_of i) |}, w')
        ∧ authenticated w' caller
        ∧ faults w' = []
        ∧ clock w' = clock w
        ∧ bookings w' !! target i = Some (overwrite (payload_of i w) booking)
        ∧ updates w' = updates w ++ [(target i, payload_of i w)].
Proof.
  intros Hauth Hfs Hb Hp Hpre.
  assert (H0 : fault_at 0 w = None) by (unfold fault_at; by rewrite Hfs).
  assert (H1 : fault_at 1 w = None) by (unfold fault_at; by rewrite Hfs).
  eexists. split.
  { apply (served_run i w caller booking); try done.
    by apply fetch_reply_found. }
  destruct Hauth as [Hu Hne].
  split; [split; [by rewrite user_after_update | done]|].
  split; [by rewrite faults_after_update, Hfs|].
  split; [apply clock_after_update|].
  split.
  - rewrite (table_after_update _ _ _ booking Hb), H1.
    apply lookup_insert_eq.
  - by rewrite updates_after_update, updates_after_fetch.
Qed.

Lemma prop_overwrite_keep (p row : gmap string value) (k : string) :
  p !! k = None → prop (overwrite p row) k = prop row k.
Proof. intros Hk. unfold prop. by rewrite lookup_overwrite, Hk. Qed.

Lemma prop_overwrite_set (p row : gmap string value) (k s : string) :
  p !! k = Some (VString s) → prop (overwrite p row) k = VString s.
Proof. intros Hk. unfold prop. by rewrite lookup_overwrite, Hk. Qed.

(** X2. The whole lifecycle in one go: on a pending booking of the caller,
    with a store that refuses nothing, accept, then start, then complete all
    return; the booking ends [completed] with its three timestamps set, its
    provider unchanged, and exactly three updates were issued. *)
Theorem lifecycle_runs_through (b : string) (n1 n2 n3 : option string)
    (w : World) (caller : string) (booking : gmap string value) :
  authenticated w caller →
  faults w = [] →
  bookings w !! b = Some booking →
  prop booking "provider_user_id" = VString caller →
  prop booking "status" = VString "pending" →
  ∃ w' row,
    (acceptBooking b n1 ;; markInProgress b n2 ;; completeBooking b n3)%hook w
    = (Return {| bookingId := b; status := "completed" |}, w')
    ∧ bookings w' !! b = Some row
    ∧ prop row "status" = VString "completed"
    ∧ (∃ at1, prop row "accepted_at" = VString at1)
    ∧ (∃ at2, prop row "started_at" = VString at2)
    ∧ (∃ at3, prop row "completed_at" = VString at3)
    ∧ prop row "provider_user_id" = VString caller
    ∧ length (updates w') = length (updates w) + 3.
Proof.
  intros Hauth Hfs Hb Hp Hs.
  destruct (served_step (CallAccept b n1) w caller booking Hauth Hfs Hb Hp)
    as (w1 & Hrun1 & Hauth1 & Hfs1 & Hc1 & Hb1 & Hu1).
  { cbn [transition_of table_precondition]. by rewrite Hs. }
  set (row1 := overwrite (payload_of (CallAccept b n1) w) booking) in *.
  assert (Hp1 : prop row1 "provider_user_id" = VString caller).
  { unfold row1. by rewrite prop_overwrite_keep. }
  assert (Hs1 : prop row1 "status" = VString "accepted").
  { unfold row1. by apply prop_overwrite_set. }
  assert (Ha1 : prop row1 "accepted_at" = VString (clock w)).
  { unfold row1. by apply prop_overwrite_set. }
  destruct (served_step (CallStart b n2) w1 caller row1 Hauth1 Hfs1 Hb1 Hp1)
    as (w2 & Hrun2 & Hauth2 & Hfs2 & Hc2 & Hb2 & Hu2).
  { cbn [transition_of table_precondition]. by rewrite Hs1. }
  set (row2 := overwrite (payload_of (CallStart b n2) w1) row1) in *.
  assert (Hp2 : prop row2 "provider_user_id" = VString caller).
  { unfold row2. by rewrite prop_overwrite_keep. }
  assert (Hs2 : prop row2 "status" = VString "in_progress").
  { unfold row2. by apply prop_overwrite_set. }
  assert (Ha2 : prop row2 "accepted_at" = VString (clock w)).
  { unfold row2. by rewrite prop_overwrite_keep. }
  assert (Hst2 : prop row2 "started_at" = VString (clock w1)).
  { unfold row2. by apply prop_overwrite_set. }
  destruct (served_step (CallComplete b n3) w2 caller row2 Hauth2 Hfs2 Hb2 Hp2)
    as (w3 & Hrun3 & Hauth3 & Hfs3 & Hc3 & Hb3 & Hu3).
  { cbn [transition_of table_precondition]. by rewrite Hs2. }
  set (row3 := overwrite (payload_of (CallComplete b n3) w2) row2) in *.
  exists w3, row3. split.
  { cbn [mutationFn target transition_of table_status] in Hrun1, Hrun2, Hrun3.
    unfold bind. by rewrite Hrun1, Hrun2, Hrun3. }
  split; [exact Hb3|].
  split; [unfold row3; by apply prop_overwrite_set|].
  split; [exists (clock w); unfold row3; by rewrite prop_overwrite_keep|].
  split; [exists (clock w1); unfold row3; by rewrite prop_overwrite_keep|].
  split; [exists (clock w2); unfold row3; by apply prop_overwrite_set|].
  split; [unfold row3; by rewrite prop_overwrite_keep|].
  rewrite Hu3, Hu2, Hu1, !length_app. cbn. lia.
Qed.

Lemma lifecycle_runs_through_witness :
  ∃ w' row,
    (acceptBooking "b1" (Some "ok") ;; markInProgress "b1" None ;;
     completeBooking "b1" (Some "done"))%hook
      (world_of (Some "u1") "pending" [])
    = (Return {| bookingId := "b1"; status := "completed" |}, w')
    ∧ bookings w' !! "b1" = Some row
    ∧ prop row "status" = VString "completed"
    ∧ (∃ at1, prop row "accepted_at" = VString at1)
    ∧ (∃ at2, prop row "started_at" = VString at2)
    ∧ (∃ at3, prop row "completed_at" = VString at3)
    ∧ prop row "provider_user_id" = VString "u1"
    ∧ length (updates w')
      = length (updates (world_of (Some "u1") "pending" [])) + 3.
Proof.
  apply (lifecycle_runs_through "b1" (Some "ok") None (Some "done")
           (world_of (Some "u1") "pending" []) "u1" (booking_b1 "pending")).
  - split; [reflexivity | discriminate].
  - reflexivity.
  - apply lookup_singleton_eq.
  - reflexivity.
  - reflexivity.
Defined.

(** X3. [completed] and [cancelled] are terminal: on a booking with one of
    these statuses every one of the four transitions throws, whoever calls
    and whatever the store answers, and the table is left as it was. *)
Theorem terminal_statuses_absorb (i : Invocation) (w : World)
    (booking : gmap string value) :
  bookings w !! target i = Some booking →
  prop booking "status" = VString "completed"
  ∨ prop booking "status" = VString "cancelled" →
  (∃ e, fst (mutationFn i w) = Throw e)
  ∧ bookings (snd (mutationFn i w)) = bookings w.
Proof.
  intros Hb Hs. rewrite mutationFn_table. unfold table_run, fetch_reply.
  destruct (falsy _); [eauto|].
  destruct (fault_at 0 w); [eauto|]. rewrite Hb.
  destruct (negb (strict_eq _ _)); [eauto|].
  assert (Hpre : table_precondition (transition_of i) (prop booking "status")
                 = false).
  { destruct Hs as [-> | ->]; by destruct i. }
  rewrite Hpre. eauto.
Qed.

Lemma terminal_statuses_absorb_witness :
  (∃ e, fst (mutationFn (CallStart "b1" None)
               (world_of (Some "u1") "cancelled" [])) = Throw e)
  ∧ bookings (snd (mutationFn (CallStart "b1" None)
                     (world_of (Some "u1") "cancelled" [])))
    = bookings (world_of (Some "u1") "cancelled" []).
Proof.
  apply (terminal_statuses_absorb (CallStart "b1" None)
           (world_of (Some "u1") "cancelled" []) (booking_b1 "cancelled")).
  - apply lookup_singleton_eq.
  - right. reflexivity.
Defined.

Lemma precondition_after (t t' : Transition) :
  table_precondition t' (VString (table_status t)) = Mutations.follows t t'.
Proof. destruct t, t'; reflexivity. Qed.

(** X4. The order of the lifecycle.  Right after a transition went
    through, a transition on the same booking passes its precondition only
    along accept → start → complete, or as a cancel after accept or start;
    every other one (the same transition again, anything after complete or
    cancel) throws the invalid-transition error and issues no update. *)
Theorem lifecycle_order (i i' : Invocation) (w w' : World) (o : Outcome) :
  mutationFn i w = (Return o, w') →
  target i' = target i →
  fault_at 0 w' = None →
  (Mutations.follows (transition_of i) (transition_of i') = false →
   mutationFn i' w'
   = (Throw (thrown (transition_of i') Precondition),
      after_fetch (target i) w'))
  ∧ (Mutations.follows (transition_of i) (transition_of i') = true →
     updates (snd (mutationFn i' w'))
     = updates w' ++ [(target i, payload_of i' w')]).
Proof.
  intros Hrun Ht H0.
  apply success_inv in Hrun
    as (caller & booking & Hauth & Hb & Hp & _ & H1 & -> & _).
  apply fetch_reply_found in Hb as [_ Hb].
  set (w' := after_update _ _ _) in *.
  set (row := overwrite (payload_of i w) booking).
  assert (Hauth' : authenticated w' caller).
  { destruct Hauth as [Hu Hne]. split; [|done].
    unfold w'. by rewrite user_after_update. }
  assert (Hb' : fetch_reply (target i) w' = Data row).
  { apply fetch_reply_found. split; [done|]. unfold w'.
    rewrite (table_after_update _ _ _ booking Hb), H1.
    apply lookup_insert_eq. }
  assert (Hp' : prop row "provider_user_id" = VString caller).
  { unfold row. rewrite prop_overwrite_keep; [done|].
    apply payload_outside, provider_not_written. }
  assert (Hs' : prop row "status" = VString (table_status (transition_of i))).
  { unfold row. apply prop_overwrite_set, payload_status. }
  rewrite mutationFn_table, Ht.
  rewrite (table_run_fetched _ _ _ _ _ _ Hauth' Hb').
  rewrite bool_decide_eq_true_2 by done. cbn [negb].
  rewrite Hs', precondition_after.
  split; intros ->; cbn [negb snd]; [done|].
  apply updates_after_update_fetch.
Qed.

(** Accepting twice in a row: the second call is refused. *)
Lemma lifecycle_order_witness :
  mutationFn (CallAccept "b1" None)
    (after_update "b1"
       (payload_of (CallAccept "b1" None) (world_of (Some "u1") "pending" []))
       (after_fetch "b1" (world_of (Some "u1") "pending" [])))
  = (Throw (Error "This booking cannot be accepted"),
     after_fetch "b1"
       (after_update "b1"
          (payload_of (CallAccept "b1" None)
             (world_of (Some "u1") "pending" []))
          (after_fetch "b1" (world_of (Some "u1") "pending" [])))).
Proof.
  assert (Hrun : mutationFn (CallAccept "b1" None)
                   (world_of (Some "u1") "pending" [])
                 = (Return {| bookingId := "b1"; status := "accepted" |},
                    after_update "b1"
                      (payload_of (CallAccept "b1" None)
                         (world_of (Some "u1") "pending" []))
                      (after_fetch "b1" (world_of (Some "u1") "pending" [])))).
  { apply (served_run (CallAccept "b1" None) _ "u1" (booking_b1 "pending")).
    - split; [reflexivity | discriminate].
    - apply fetch_reply_found. split; [reflexivity|].
      apply lookup_singleton_eq.
    - reflexivity.
    - reflexivity.
    - reflexivity. }
  destruct (lifecycle_order (CallAccept "b1" None) (CallAccept "b1" None)
              _ _ _ Hrun eq_refl eq_refl) as [Hrefused _].
  apply Hrefused. reflexivity.
Defined.

(** X5. Whatever the outcome of a transition (returned or thrown, update
    served or refused), the user and the clock are untouched, no booking is
    created or deleted, every other booking is as it was, and in the target
    booking every column outside the status and the fields of the
    transition keeps its value: in particular a transition never changes
    the provider or the customer of a booking. *)
Theorem transition_frame_always (i : Invocation) (w : World) :
  let w' := snd (mutationFn i w) in
  user w' = user w
  ∧ clock w' = clock w
  ∧ dom (bookings w') = dom (bookings w)
  ∧ (∀ b', b' ≠ target i → bookings w' !! b' = bookings w !! b')
  ∧ (∀ row row' k,
       bookings w !! target i = Some row →
       bookings w' !! target i = Some row' →
       k ∉ ({[ "status" ]} ∪ table_fields (transition_of i) : gset string) →
       row' !! k = row !! k).
Proof.
  intros w'. unfold w'. clear w'. rewrite mutationFn_table.
  destruct (table_run_world (transition_of i) (target i) (payload_of i w) w)
    as [-> | [-> | (booking & Hb & ->)]].
  - repeat split; try done. intros row row' k Hr Hr' _. congruence.
  - repeat split; try done. intros row row' k Hr Hr' _.
    rewrite bookings_after_fetch in Hr'. congruence.
  - apply fetch_reply_found in Hb as [_ Hb].
    rewrite user_after_update, clock_after_update.
    rewrite (table_after_update _ _ _ booking Hb).
    destruct (fault_at 1 w).
    { repeat split; try done. intros row row' k Hr Hr' _. congruence. }
    split; [done|]. split; [done|]. split; [|split].
    + rewrite dom_insert_L. apply elem_of_dom_2 in Hb.
      apply set_eq. intros x. rewrite elem_of_union, elem_of_singleton.
      split; [intros [->|?]; done | tauto].
    + intros b' Hne. by rewrite lookup_insert_ne.
    + intros row row' k Hr Hr' Hk. rewrite lookup_insert_eq in Hr'.
      injection Hr' as <-. rewrite Hb in Hr. injection Hr as <-.
      by rewrite lookup_overwrite, payload_outside.
Qed.

Lemma transition_frame_always_witness :
  bookings (snd (mutationFn (CallCancel "b1" "late")
                   (world_of (Some "u1") "accepted" []))) !! "b2"
  = bookings (world_of (Some "u1") "accepted" []) !! "b2".
Proof.
  destruct (transition_frame_always (CallCancel "b1" "late")
              (world_of (Some "u1") "accepted" []))
    as (_ & _ & _ & Hothers & _).
  apply Hothers. discriminate.
Defined.

(** X6. The remote calls of a transition: none when the caller is not
    authenticated; otherwise one select of the booking, followed by at most
    one update, of that same booking, with the body of the transition.  An
    update is never issued without the select before it. *)
Theorem transition_requests (i : Invocation) (w : World) :
  let w' := snd (mutationFn i w) in
  (falsy (optional_id (user w)) = true → requests w' = requests w)
  ∧ (falsy (optional_id (user w)) = false →
     requests w' = requests w ++ [Select (target i)]
     ∨ requests w'
       = requests w ++ [Select (target i);
                        Update (target i) (payload_of i w)]).
Proof.
  intros w'. unfold w'. clear w'. rewrite mutationFn_table. unfold table_run.
  split; intros ->; [done|].
  destruct (fetch_reply _ w); [|by left].
  destruct (negb _); [by left|].
  destruct (negb _); [by left|].
  right. destruct (fault_at 1 w); apply requests_after_update.
Qed.

Lemma transition_requests_witness :
  requests (snd (mutationFn (CallComplete "b1" None)
                   (world_of None "in_progress" []))) = [].
Proof.
  destruct (transition_requests (CallComplete "b1" None)
              (world_of None "in_progress" [])) as [Hnone _].
  apply Hnone. reflexivity.
Defined.

(** X7. Rows with missing columns.  A booking whose [provider_user_id] is
    absent or [null] cannot be transitioned by anyone: every authenticated
    caller gets the authorization error.  A booking of the caller whose
    [status] is absent is refused by accept, start and complete, but
    [cancelBooking] goes on to issue its update: its test only excludes the
    two terminal statuses. *)
Theorem missing_columns (i : Invocation) (w : World) (caller : string)
    (booking : gmap string value) :
  authenticated w caller →
  fetch_reply (target i) w = Data booking →
  (booking !! "provider_user_id" = None
   ∨ booking !! "provider_user_id" = Some VNull →
   mutationFn i w
   = (Throw (thrown (transition_of i) Authorization),
      after_fetch (target i) w))
  ∧ (prop booking "provider_user_id" = VString caller →
     booking !! "status" = None →
     match transition_of i with
     | Cancel =>
         updates (snd (mutationFn i w))
         = updates w ++ [(target i, payload_of i w)]
     | _ =>
         mutationFn i w
         = (Throw (thrown (transition_of i) Precondition),
            after_fetch (target i) w)
     end).
Proof.
  intros Hauth Hb. rewrite mutationFn_table.
  rewrite (table_run_fetched _ _ _ _ _ _ Hauth Hb). split.
  - intros Hp. rewrite bool_decide_eq_false_2; [done|].
    unfold prop. destruct Hp as [-> | ->]; discriminate.
  - intros Hp Hs. rewrite bool_decide_eq_true_2 by done. cbn [negb].
    assert (Hu : prop booking "status" = VUndefined)
      by (unfold prop; by rewrite Hs).
    rewrite Hu.
    destruct i; cbn [transition_of table_precondition]; try done.
    cbn [negb snd]. apply updates_after_update_fetch.
Qed.

Lemma missing_columns_witness :
  mutationFn (CallAccept "b1" None)
    (Mutations.world_with (Some "u1") {[ "id" := VString "b1" ]})
  = (Throw (Error "You are not authorized to accept this booking"),
     after_fetch "b1"
       (Mutations.world_with (Some "u1") {[ "id" := VString "b1" ]})).
Proof.
  destruct (missing_columns (CallAccept "b1" None)
              (Mutations.world_with (Some "u1") {[ "id" := VString "b1" ]})
              "u1" {[ "id" := VString "b1" ]}) as [Hprovider _].
  - split; [reflexivity | discriminate].
  - apply fetch_reply_found. split; [reflexivity|].
    apply lookup_singleton_eq.
  - apply Hprovider. left. by apply lookup_singleton_ne.
Defined.

End BookingsExtra.


(** * Properties of the mutations with their handlers *)

Module MutationsExtra.
Import Bookings BookingsFacts Mutations.

(** A mutation run with its handlers, in one step: the mutation function,
    then the toast and the invalidations of the handler that applies. *)
Lemma mutate_settles (i : Invocation) (c : Client) :
  mutate i c
  = match mutationFn i (world c) with
    | (Return o, w') =>
        (Return o,
         {| world := w';
            toasts := toasts c ++ [success_toast (transition_of i)];
            invalidated :=
              invalidated c ++ [["bookings"]; ["provider-bookings"]] |})
    | (Throw e, w') =>
        (Throw e,
         {| world := w';
            toasts := toasts c ++ [error_toast (transition_of i) e];
            invalidated := invalidated c |})
    end.
Proof.
  destruct i;
    unfold mutate, Mutations.acceptBooking, Mutations.markInProgress,
      Mutations.completeBooking, Mutations.cancelBooking, useMutation,
      try_catch, lift, toast, invalidateQueries, bind, ret, throw, modify,
      mutationFn;
    cbn [transition_of success_toast fallback error_toast];
    match goal with
    | |- context [?f (world c)] =>
        destruct (f (world c)) as [[o|e] w']
    end;
    cbn [world toasts invalidated]; unfold error_toast;
    cbn [fallback]; by rewrite <- ?app_assoc.
Qed.

(** What a mutation function throws: the error of one of its four checks,
    or the error of the store for the update, as the store gave it. *)
Lemma thrown_cases (i : Invocation) (w : World) (e : Exn) :
  fst (mutationFn i w) = Throw e →
  (∃ g, e = thrown (transition_of i) g)
  ∨ (∃ m, e = PostgrestError m ∧ fault_at 1 w = Some m).
Proof.
  rewrite mutationFn_table. unfold table_run.
  destruct (falsy _);
    [intros [= <-]; left; by exists Authentication|].
  destruct (fetch_reply (target i) w);
    [|intros [= <-]; left; by exists Fetch].
  destruct (negb _); [intros [= <-]; left; by exists Authorization|].
  destruct (negb _); [intros [= <-]; left; by exists Precondition|].
  destruct (fault_at 1 w); [|discriminate]. intros [= <-]. eauto.
Qed.



(** X9. What the user reads when a mutation fails.  The description of the
    toast is the message of the error thrown: for each of the four checks
    its own sentence, word for word; for an update the store refused, the
    message of the store.  The fallback sentence of the mutation is shown
    only when the store refused the update with an empty message. *)
Theorem failure_toast_reason (i : Invocation) (c : Client) (e : Exn) :
  fst (mutationFn i (world c)) = Throw e →
  ∃ t, toasts (snd (mutate i c)) = toasts c ++ [t]
       ∧ (message e ≠ "" → Favorites.description t = message e)
       ∧ (∀ g, e = thrown (transition_of i) g →
               Favorites.description t = message e)
       ∧ (message e = "" →
          e = PostgrestError ""
          ∧ fault_at 1 (world c) = Some ""
          ∧ Favorites.description t = fallback (transition_of i)).
Proof.
  intros He. rewrite mutate_settles.
  pose proof (thrown_cases _ _ _ He) as Hcases.
  destruct (mutationFn i (world c)) as [r w']. cbn in He. subst r.
  cbn [snd toasts]. eexists. split; [reflexivity|].
  cbn [error_toast Favorites.description]. unfold or_else.
  split; [|split].
  - intros Hm. by rewrite bool_decide_eq_false_2.
  - intros g ->. by destruct (transition_of i), g.
  - intros Hm. rewrite bool_decide_eq_true_2 by done.
    destruct Hcases as [[g ->] | (m & -> & H1)].
    + by destruct (transition_of i), g.
    + cbn in Hm. by subst m.
Qed.

(** The scenario of the specification: [u2] accepts a booking of [u1]. *)
Lemma failure_toast_reason_witness :
  ∃ t, toasts (snd (mutate (CallAccept "b1" None)
                      (client_of (world_of (Some "u2") "pending" []))))
       = [t]
       ∧ Favorites.description t
         = "You are not authorized to accept this booking".
Proof.
  destruct (failure_toast_reason (CallAccept "b1" None)
              (client_of (world_of (Some "u2") "pending" []))
              (Error "You are not authorized to accept this booking"))
    as (t & Ht & Hd & _).
  - vm_compute. reflexivity.
  - exists t. split; [exact Ht|]. apply Hd. discriminate.
Defined.

End MutationsExtra.


(** * Further properties of the favorites *)

Module FavoritesExtra.
Import Favorites FavoritesFacts.

Lemma isFavorite_find (h : Hook) (p : string) :
  isFavorite h p = false ↔
  find (λ fav, bool_decide (provider_user_id fav = p)) (favorites h) = None.
Proof.
  rewrite find_provider_none. split.
  - intros Hno fav Hin Hp. apply not_true_iff_false in Hno. apply Hno.
    apply isFavorite_spec. eauto.
  - intros Hall. apply not_true_is_false.
    intros (fav & Hin & Hp)%isFavorite_spec. by destruct (Hall fav Hin).
Qed.

Lemma filter_others_id (favs : list Favorite) (p : string) :
  (∀ fav, fav ∈ favs → provider_user_id fav ≠ p) →
  filter (λ fav, provider_user_id fav ≠ p) favs = favs.
Proof.
  induction favs as [|f favs IH]; intros Hall; [reflexivity|].
  rewrite filter_cons_True by (apply Hall, list_elem_of_here).
  f_equal. apply IH. intros fav Hin. apply Hall, elem_of_cons. by right.
Qed.

Lemma NoDup_providers_filter (favs : list Favorite) (p : string) :
  NoDup (provider_user_id <$> favs) →
  NoDup (provider_user_id <$> filter (λ fav, provider_user_id fav ≠ p) favs).
Proof.
  intros Hnd. apply (sublist_NoDup _ _ Hnd).
  apply fmap_sublist, sublist_filter.
Qed.

(** X10. A load that the store serves replaces the local favorites by the
    rows returned, whatever they were before (nothing is merged), and by
    the empty list when the store returns [null]; it shows no toast and
    ends with [loading] off. *)
Theorem load_replaces (user : option User) (remote : Remote) (h : Hook)
    (data : option (list Favorite)) :
  authenticated user →
  select_eq remote (dot_id user) = Resolves (Data data) →
  ∃ h', loadFavorites user remote h = (Return tt, h')
        ∧ favorites h' = default [] data
        ∧ (data = None → favorites h' = [])
        ∧ toasts h' = toasts h
        ∧ loading h' = false.
Proof.
  unfold authenticated. intros Hauth Hsel.
  rewrite loadFavorites_paths, Hauth, Hsel. eexists.
  repeat split. by intros ->.
Qed.

Lemma load_replaces_witness :
  ∃ h', loadFavorites customer_c7
          (remote_serving [favorite_of "c7" "p2"; favorite_of "c8" "p3"])
          (hook_with [favorite_of "c7" "p1"]) = (Return tt, h')
        ∧ favorites h' = [favorite_of "c7" "p2"].
Proof.
  destruct (load_replaces customer_c7
              (remote_serving [favorite_of "c7" "p2"; favorite_of "c8" "p3"])
              (hook_with [favorite_of "c7" "p1"])
              (Some [favorite_of "c7" "p2"]))
    as (h' & Hrun & Hfav & _).
  - reflexivity.
  - reflexivity.
  - exists h'. by split.
Defined.

(** X11. The [loading] flag.  With an authenticated user [loadFavorites]
    always ends with [loading] off, whether the store served, refused or
    the call rejected; without a user it leaves the flag as it finds it;
    [addToFavorites] and [removeFromFavorites] never touch it. *)
Theorem loading_flag (user : option User) (remote : Remote)
    (rendered : list Favorite) (h : Hook) :
  (authenticated user →
   loading (snd (loadFavorites user remote h)) = false)
  ∧ (¬ authenticated user →
     loading (snd (loadFavorites user remote h)) = loading h)
  ∧ (∀ p, loading (snd (addToFavorites user remote rendered p h)) = loading h)
  ∧ (∀ p, loading (snd (removeFromFavorites user remote p h)) = loading h).
Proof.
  unfold authenticated. split; [|split; [|split]].
  - intros Hauth. rewrite loadFavorites_paths, Hauth.
    by destruct (select_eq _ _) as [[d|e]|e].
  - intros Hno. rewrite loadFavorites_paths.
    by destruct (falsy _).
  - intros p. rewrite addToFavorites_paths. destruct (falsy _); [done|].
    destruct (find _ _); [done|].
    by destruct (insert_single _ _ _) as [[d|e]|e].
  - intros p. rewrite removeFromFavorites_paths. destruct (falsy _); [done|].
    by destruct (delete_eq _ _ _) as [[d|e]|e].
Qed.

Lemma loading_flag_witness :
  loading (snd (loadFavorites customer_c7 remote_unreachable
                  {| favorites := []; loading := true; toasts := [];
                     requests := [] |})) = false
  ∧ loading (snd (loadFavorites None remote_unreachable
                    {| favorites := []; loading := true; toasts := [];
                       requests := [] |})) = true.
Proof.
  split.
  - apply (proj1 (loading_flag customer_c7 remote_unreachable [] _)).
    reflexivity.
  - apply (proj1 (proj2 (loading_flag None remote_unreachable []
                           {| favorites := []; loading := true;
                              toasts := []; requests := [] |}))).
    discriminate.
Defined.

(** X12. Adding a provider and removing it again.  When
    [addToFavorites p] returned [true] (the record returned naming [p]) and
    the [removeFromFavorites p] that follows returned [true], the local
    favorites are those before the add without their entries of [p].  For
    an add made through the callback of the current render (the favorites
    it closed over are the local ones) there were none, and the list is
    exactly the one before the add. *)
Theorem add_then_remove (user : option User) (remote remote' : Remote)
    (rendered : list Favorite) (p : string) (h h1 h2 : Hook) :
  addToFavorites user remote rendered p h = (Return true, h1) →
  (∀ data, insert_single remote (dot_id user) p = Resolves (Data data) →
           provider_user_id data = p) →
  removeFromFavorites user remote' p h1 = (Return true, h2) →
  favorites h2 = filter (λ fav, provider_user_id fav ≠ p) (favorites h)
  ∧ (rendered = favorites h → favorites h2 = favorites h).
Proof.
  rewrite addToFavorites_paths, removeFromFavorites_paths.
  intros Hadd Hdata Hrem.
  destruct (falsy _); [discriminate|].
  destruct (find _ _) eqn:Hfind; [discriminate|].
  destruct (insert_single _ _ _) as [[data|e]|e]; try discriminate.
  injection Hadd as <-.
  destruct (delete_eq _ _ _) as [[u|e]|e]; try discriminate.
  injection Hrem as <-. cbn.
  assert (Hfilter : filter (λ fav, provider_user_id fav ≠ p)
                      (favorites h ++ [data])
                    = filter (λ fav, provider_user_id fav ≠ p) (favorites h)).
  { rewrite filter_app, filter_cons_False, filter_nil, app_nil_r; [done|].
    intros Hne. by destruct Hne; apply Hdata. }
  rewrite Hfilter. split; [done|]. intros ->.
  apply filter_others_id. by apply find_provider_none.
Qed.

Lemma add_then_remove_witness :
  favorites (snd (removeFromFavorites customer_c7 (remote_serving []) "p2"
                    (snd (addToFavorites customer_c7 (remote_serving [])
                            [favorite_of "c7" "p1"] "p2"
                            (hook_with [favorite_of "c7" "p1"])))))
  = [favorite_of "c7" "p1"].
Proof.
  destruct (add_then_remove customer_c7 (remote_serving []) (remote_serving [])
              [favorite_of "c7" "p1"] "p2"
              (hook_with [favorite_of "c7" "p1"])
              (snd (addToFavorites customer_c7 (remote_serving [])
                      [favorite_of "c7" "p1"] "p2"
                      (hook_with [favorite_of "c7" "p1"])))
              (snd (removeFromFavorites customer_c7 (remote_serving []) "p2"
                      (snd (addToFavorites customer_c7 (remote_serving [])
                              [favorite_of "c7" "p1"] "p2"
                              (hook_with [favorite_of "c7" "p1"]))))))
    as [_ Hsame].
  - reflexivity.
  - intros data [= <-]. reflexivity.
  - reflexivity.
  - apply Hsame. reflexivity.
Defined.

(** X13. Adding twice.  After an [addToFavorites p] that returned [true]
    (the record returned naming [p]), a second [addToFavorites p] made
    through the callback of the next render, which closed over the
    favorites the first add left, returns [false] as a duplicate whatever
    the store would answer: no remote call, local favorites unchanged.
    Made through the same callback as the first, it is not refused: it
    issues the insert again, and when the store serves it the local
    favorites get a second entry. *)
Theorem second_add (user : option User) (remote remote' : Remote)
    (rendered : list Favorite) (p : string) (h h1 : Hook) :
  addToFavorites user remote rendered p h = (Return true, h1) →
  (∀ data, insert_single remote (dot_id user) p = Resolves (Data data) →
           provider_user_id data = p) →
  (∃ h2, addToFavorites user remote' (favorites h1) p h1 = (Return false, h2)
         ∧ requests h2 = requests h1
         ∧ favorites h2 = favorites h1)
  ∧ requests (snd (addToFavorites user remote' rendered p h1))
    = requests h1 ++ [Insert (dot_id user) p]
  ∧ (∀ data', insert_single remote' (dot_id user) p = Resolves (Data data') →
              addToFavorites user remote' rendered p h1
              = (Return true,
                 {| favorites := favorites h1 ++ [data'];
                    loading := loading h1;
                    toasts := toasts h1 ++
                      [{| title := "Added to Favorites";
                          description := "Provider has been added to your favorites.";
                          variant := None |}];
                    requests := requests h1 ++ [Insert (dot_id user) p] |})).
Proof.
  rewrite !addToFavorites_paths. intros Hadd Hdata.
  destruct (falsy _); [discriminate|].
  destruct (find _ rendered); [discriminate|].
  destruct (insert_single remote _ _) as [[data|e]|e] eqn:Hins;
    try discriminate.
  injection Hadd as <-. cbn [favorites requests toasts loading].
  split; [|split].
  - destruct (find _ _) eqn:Hfind; [eauto|].
    rewrite find_provider_none in Hfind.
    destruct (Hfind data); [|by apply Hdata].
    apply elem_of_app. right. apply list_elem_of_here.
  - by destruct (insert_single remote' _ _) as [[d|e]|e].
  - by intros data' ->.
Qed.

(** The same callback used twice: two inserts, two entries of [p1]. *)
Lemma second_add_witness :
  (∃ h2, addToFavorites customer_c7 (remote_serving []) [favorite_of "c7" "p1"]
           "p1" (snd (addToFavorites customer_c7 (remote_serving []) [] "p1"
                        (hook_with []))) = (Return false, h2)
         ∧ requests h2 = [Insert "c7" "p1"]
         ∧ favorites h2 = [favorite_of "c7" "p1"])
  ∧ requests (snd (addToFavorites customer_c7 (remote_serving []) [] "p1"
                     (snd (addToFavorites customer_c7 (remote_serving []) []
                             "p1" (hook_with [])))))
    = [Insert "c7" "p1"; Insert "c7" "p1"].
Proof.
  destruct (second_add customer_c7 (remote_serving []) (remote_serving [])
              [] "p1" (hook_with [])
              (snd (addToFavorites customer_c7 (remote_serving []) [] "p1"
                      (hook_with []))))
    as (Hnext & Hsame & _).
  - reflexivity.
  - intros data [= <-]. reflexivity.
  - split; [exact Hnext | exact Hsame].
Defined.

(** X14. [removeFromFavorites] does not look at the local favorites
    first: for a provider that is not a favorite it still calls the store
    and, when the store serves the delete, returns [true] and shows the
    success toast, the local favorites being what they were. *)
Theorem remove_absent_succeeds (user : option User) (remote : Remote)
    (p : string) (h : Hook) :
  authenticated user →
  delete_eq remote (dot_id user) p = Resolves (Data tt) →
  isFavorite h p = false →
  ∃ h', removeFromFavorites user remote p h = (Return true, h')
        ∧ favorites h' = favorites h
        ∧ requests h' = requests h ++ [Delete (dot_id user) p]
        ∧ ∃ t, toasts h' = toasts h ++ [t] ∧ variant t = None.
Proof.
  unfold authenticated. intros Hauth Hdel Hno.
  rewrite removeFromFavorites_paths, Hauth, Hdel. eexists.
  split; [reflexivity|]. cbn. split; [|eauto].
  apply filter_others_id, find_provider_none. by apply isFavorite_find.
Qed.

Lemma remove_absent_succeeds_witness :
  ∃ h', removeFromFavorites customer_c7 (remote_serving []) "p9"
          (hook_with [favorite_of "c7" "p1"]) = (Return true, h')
        ∧ favorites h' = [favorite_of "c7" "p1"]
        ∧ requests h' = [Delete "c7" "p9"]
        ∧ ∃ t, toasts h' = [t] ∧ variant t = None.
Proof.
  apply (remove_absent_succeeds customer_c7 (remote_serving []) "p9"
           (hook_with [favorite_of "c7" "p1"])); reflexivity.
Defined.

(** X15. One entry per provider.  When no two local favorites name the
    same provider, this is still so after [removeFromFavorites], whatever
    it returns, and after an [addToFavorites] made through the callback of
    the current render (the favorites it closed over are the local ones),
    provided the record the insert returns names the provider asked for.
    Through a callback of an earlier render it can be lost. *)
Theorem distinct_providers_kept (user : option User) (remote : Remote)
    (p : string) (h : Hook) :
  NoDup (provider_user_id <$> favorites h) →
  (∀ data, insert_single remote (dot_id user) p = Resolves (Data data) →
           provider_user_id data = p) →
  NoDup (provider_user_id <$>
           favorites (snd (addToFavorites user remote (favorites h) p h)))
  ∧ NoDup (provider_user_id <$>
             favorites (snd (removeFromFavorites user remote p h))).
Proof.
  intros Hnd Hdata. split.
  - rewrite addToFavorites_paths. destruct (falsy _); [done|].
    destruct (find _ _) eqn:Hfind; [done|].
    destruct (insert_single _ _ _) as [[data|e]|e] eqn:Hins; try done.
    cbn. rewrite fmap_app. apply NoDup_app. split; [done|]. split.
    + intros q Hq Hq'. cbn in Hq'. apply list_elem_of_singleton in Hq'.
      apply list_elem_of_fmap in Hq as (fav & -> & Hin).
      rewrite find_provider_none in Hfind.
      destruct (Hfind fav Hin). rewrite Hq'. by apply Hdata.
    + cbn. apply NoDup_singleton.
  - rewrite removeFromFavorites_paths. destruct (falsy _); [done|].
    destruct (delete_eq _ _ _) as [[u|e]|e]; try done.
    cbn. by apply NoDup_providers_filter.
Qed.

Lemma distinct_providers_kept_witness :
  NoDup (provider_user_id <$>
           favorites (snd (addToFavorites customer_c7 (remote_serving [])
                             (favorites (hook_with [favorite_of "c7" "p1"]))
                             "p2" (hook_with [favorite_of "c7" "p1"])))).
Proof.
  apply (proj1 (distinct_providers_kept customer_c7 (remote_serving []) "p2"
                  (hook_with [favorite_of "c7" "p1"])
                  ltac:(apply NoDup_singleton)
                  ltac:(intros data [= <-]; reflexivity))).
Defined.

(** X16. The remote calls of the favorites.  Every operation issues at
    most one call, always scoped to the id of the user, and none without an
    authenticated user: [loadFavorites] one select; [removeFromFavorites]
    one delete of the provider; [addToFavorites] one insert of the
    provider, exactly when no entry of the favorites of the render that
    made the callback names it, that is when the [isFavorite] of that
    render does not hold for it.  The local favorites at the time of the
    call play no part in it. *)
Theorem favorites_requests (user : option User) (remote : Remote)
    (rendered : list Favorite) (p : string) (h : Hook) :
  requests (snd (loadFavorites user remote h))
  = requests h ++
    (if falsy (optional_id user) then [] else [Select (dot_id user)])
  ∧ requests (snd (addToFavorites user remote rendered p h))
    = requests h ++
      (if falsy (optional_id user) || isFavorite (hook_with rendered) p
       then [] else [Insert (dot_id user) p])
  ∧ requests (snd (removeFromFavorites user remote p h))
    = requests h ++
      (if falsy (optional_id user) then [] else [Delete (dot_id user) p]).
Proof.
  rewrite loadFavorites_paths, addToFavorites_paths,
    removeFromFavorites_paths.
  destruct (falsy _); cbn [orb].
  { by rewrite app_nil_r. }
  split; [by destruct (select_eq _ _) as [[d|e]|e]|].
  split; [|by destruct (delete_eq _ _ _) as [[d|e]|e]].
  destruct (isFavorite (hook_with rendered) p) eqn:Hfav.
  - destruct (find _ _) eqn:Hfind; [by rewrite app_nil_r|].
    apply (isFavorite_find (hook_with rendered)) in Hfind. congruence.
  - apply isFavorite_find in Hfav. cbn [hook_with favorites] in Hfav.
    rewrite Hfav. by destruct (insert_single _ _ _) as [[d|e]|e].
Qed.

(** X17. The toast tells the result.  [addToFavorites] always shows exactly
    one toast, and it returns [true] exactly when that toast is not a
    destructive one; with an authenticated user the same holds of
    [removeFromFavorites]. *)
Theorem toast_tells_result (user : option User) (remote : Remote)
    (rendered : list Favorite) (p : string) (h : Hook) :
  (∃ t, toasts (snd (addToFavorites user remote rendered p h)) = toasts h ++ [t]
        ∧ (fst (addToFavorites user remote rendered p h) = Return true
           ↔ variant t = None)
        ∧ (fst (addToFavorites user remote rendered p h) = Return false
           ↔ destructive t))
  ∧ (authenticated user →
     ∃ t, toasts (snd (removeFromFavorites user remote p h)) = toasts h ++ [t]
          ∧ (fst (removeFromFavorites user remote p h) = Return true
             ↔ variant t = None)
          ∧ (fst (removeFromFavorites user remote p h) = Return false
             ↔ destructive t)).
Proof.
  unfold authenticated, destructive. split.
  - rewrite addToFavorites_paths.
    destruct (falsy _);
      [eexists; split; [reflexivity|]; cbn; split; split; done|].
    destruct (find _ _);
      [eexists; split; [reflexivity|]; cbn; split; split; done|].
    destruct (insert_single _ _ _) as [[d|e]|e];
      (eexists; split; [reflexivity|]; cbn; split; split; done).
  - intros Hauth. rewrite removeFromFavorites_paths, Hauth.
    destruct (delete_eq _ _ _) as [[d|e]|e];
      (eexists; split; [reflexivity|]; cbn; split; split; done).
Qed.

Lemma toast_tells_result_witness :
  ∃ t, toasts (snd (removeFromFavorites customer_c7 remote_refusing "p1"
                      (hook_with [favorite_of "c7" "p1"]))) = [] ++ [t]
       ∧ (fst (removeFromFavorites customer_c7 remote_refusing "p1"
                 (hook_with [favorite_of "c7" "p1"])) = Return true
          ↔ variant t = None)
       ∧ (fst (removeFromFavorites customer_c7 remote_refusing "p1"
                 (hook_with [favorite_of "c7" "p1"])) = Return false
          ↔ destructive t).
Proof.
  apply (proj2 (toast_tells_result customer_c7 remote_refusing [] "p1"
                  (hook_with [favorite_of "c7" "p1"]))).
  reflexivity.
Defined.

End FavoritesExtra.
